(** * The camera adjustment core of mhworld-custom-fov

    A shallow embedding of [src/camera.cpp], [src/camera.hpp], [src/config.hpp]
    and of the accessors of [src/config.cpp], with the properties of the
    classifier, of the parameter transform and of the memory layout.

    - a [float] is its 32-bit IEEE-754 pattern; arithmetic decodes the pattern
      to [spec_float] (Stdlib's specification of binary floating point, here
      at precision 24 and exponent bound 128), computes there with
      round-to-nearest-even, and encodes the result;
    - [std::tan] and [std::atan] belong to the C library, not to the
      repository: they are section variables of the transform;
    - the process memory is a total map from 64-bit addresses to bytes,
      accessed in little-endian order as on the x64 host;
    - the globals [g_state] and [g_config] are passed explicitly. *)

From Stdlib Require Import ZArith Bool List Lia String.
From Stdlib Require Import Floats.SpecFloat.
From coqutil Require Import Byte Word.LittleEndianList.
Import ListNotations.
Local Open Scope Z_scope.

(** ** 32-bit floats *)

Module Float32.

(** A [float] of the source: the 32 bits of its IEEE-754 encoding. *)
Definition float32 := Z.

Definition wf (w : float32) : Prop := 0 <= w < 2 ^ 32.

Definition prec : Z := 24.
Definition emax : Z := 128.

Definition sign_mask : Z := 0x80000000.
Definition infinity_bits : Z := 0x7f800000.
Definition quiet_nan : float32 := 0x7fc00000.

(** Decoding: sign in bit 31, biased exponent in bits 30..23, fraction
    in bits 22..0, with the hidden bit of a normal number put back. *)
Definition to_SF (w : float32) : spec_float :=
  let s := Z.testbit w 31 in
  let e := (w / 2 ^ 23) mod 2 ^ 8 in
  let m := w mod 2 ^ 23 in
  if e =? 0 then
    match m with
    | Zpos p => S754_finite s p (-149)
    | _ => S754_zero s
    end
  else if e =? 255 then
    if m =? 0 then S754_infinity s else S754_nan
  else
    match m + 2 ^ 23 with
    | Zpos p => S754_finite s p (e - 150)
    | _ => S754_nan
    end.

Definition sign_bits (s : bool) : Z := if s then sign_mask else 0.

(** Encoding. The exponent field is cut to its eight bits, which changes
    nothing for a value that is canonical at this precision and makes
    every result a 32-bit pattern. The payload of a NaN is not part of
    [spec_float]: a NaN that arithmetic produces is encoded as the
    positive quiet NaN. *)
Definition of_SF (x : spec_float) : float32 :=
  match x with
  | S754_zero s => sign_bits s
  | S754_infinity s => sign_bits s + infinity_bits
  | S754_nan => quiet_nan
  | S754_finite s m e =>
      if Zpos m <? 2 ^ 23 then sign_bits s + Zpos m
      else sign_bits s + ((e + 150) mod 2 ^ 8) * 2 ^ 23 + Zpos m mod 2 ^ 23
  end.

(** A decimal literal [n/d] of the source, correctly rounded. *)
Definition of_ratio (n d : positive) : float32 :=
  let '(q, e, l) := SFdiv_core_binary prec emax (Zpos n) 0 (Zpos d) 0 in
  of_SF (binary_round_aux prec emax false q e l).

(** The conversion of an [int] operand to [float]. *)
Definition of_int (z : Z) : float32 :=
  of_SF (binary_normalize prec emax z 0 false).

(** Unary minus flips the sign bit and nothing else, also on a NaN. *)
Definition neg (w : float32) : float32 := Z.lxor w sign_mask.

Definition mul (a b : float32) : float32 :=
  of_SF (SFmul prec emax (to_SF a) (to_SF b)).

Definition div (a b : float32) : float32 :=
  of_SF (SFdiv prec emax (to_SF a) (to_SF b)).

(** [a != b] on floats: a NaN differs from everything, the two zeros are
    equal. *)
Definition neqb (a b : float32) : bool :=
  negb (SFeqb (to_SF a) (to_SF b)).

Definition ltb (a b : float32) : bool := SFltb (to_SF a) (to_SF b).

(** [std::round] on the decoded value: to the nearest integer, halfway
    cases away from zero; zeros, infinities and NaN are returned as they
    are, and so is a value that has no fractional bits. *)
Definition SFround (x : spec_float) : spec_float :=
  match x with
  | S754_finite s m e =>
      if 0 <=? e then x
      else
        let d := 2 ^ (- e) in
        let q := Zpos m / d in
        let r := Zpos m mod d in
        match (if d <=? 2 * r then q + 1 else q) with
        | Zpos n => binary_round prec emax s n 0
        | _ => S754_zero s
        end
  | _ => x
  end.

Definition round (w : float32) : float32 := of_SF (SFround (to_SF w)).

(** The shapes a decoded pattern can have: a subnormal number at the least
    exponent, or a normal number with a 24-bit significand. *)
Definition canonical (x : spec_float) : Prop :=
  match x with
  | S754_finite _ m e =>
      (e = -149 /\ Zpos m < 2 ^ 23)
      \/ (2 ^ 23 <= Zpos m < 2 ^ 24 /\ -149 <= e <= 104)
  | _ => True
  end.

(** The value of a finite number in units of [2^-149], the least positive
    float; every finite float is a whole number of them. *)
Definition scaled (x : spec_float) : Z :=
  match x with
  | S754_finite s m e => (if s then -1 else 1) * (Zpos m * 2 ^ (e + 149))
  | _ => 0
  end.

(** The floats [n - 0.5] and [n + 0.5]. *)
Definition half_below (n : Z) : float32 := of_ratio (Z.to_pos (2 * n - 1)) 2.
Definition half_above (n : Z) : float32 := of_ratio (Z.to_pos (2 * n + 1)) 2.

End Float32.

(** ** Memory *)

Module Memory.

(** [uintptr_t] arithmetic wraps at 64 bits. *)
Definition wrap64 (a : Z) : Z := a mod 2 ^ 64.

Definition memory := Z -> byte.

Definition load8 (m : memory) (a : Z) : byte := m (wrap64 a).

Definition store8 (m : memory) (a : Z) (b : byte) : memory :=
  fun k => if k =? wrap64 a then b else m k.

Definition load_bytes (m : memory) (a : Z) : list byte :=
  [load8 m a; load8 m (a + 1); load8 m (a + 2); load8 m (a + 3)].

(** [*reinterpret_cast<T*>(a)] for a 4-byte [T], read. *)
Definition load32 (m : memory) (a : Z) : Z := le_combine (load_bytes m a).

Fixpoint store_bytes (m : memory) (a : Z) (bs : list byte) : memory :=
  match bs with
  | [] => m
  | b :: bs' => store_bytes (store8 m a b) (a + 1) bs'
  end.

(** [*reinterpret_cast<T*>(a) = w] for a 4-byte [T]. *)
Definition store32 (m : memory) (a : Z) (w : Z) : memory :=
  store_bytes m a (le_split 4 w).

End Memory.

(** ** [camera.hpp]: the context *)

Inductive Context := Hub | Room | Quest.

Definition as_str (context : Context) : string :=
  match context with
  | Hub => "hub"
  | Room => "room"
  | Quest => "quest"
  end.

(** ** [config.hpp] and the accessors of [config.cpp] *)

Module config.
Import Float32.

Definition default_fov : float32 := of_int 53.

Record Settings := {
  fov : float32;
  distance : float32;
  height : float32;
}.

Definition default_Settings : Settings :=
  {| fov := default_fov; distance := of_int 1; height := of_int 1 |}.

Record UserConfig := {
  hub_cam : Settings;
  room_cam : Settings;
  quest_cam : Settings;
  disable_room_shift : bool;
}.

Definition default_UserConfig : UserConfig :=
  {| hub_cam := default_Settings;
     room_cam := default_Settings;
     quest_cam := default_Settings;
     disable_room_shift := false |}.

(** [UserConfig::get_settings]: a member function, so it receives the
    instance it is called on as [this]; its body reads the global
    [g_config]. The [return] after the [switch] is not reached: the three
    enumerators are all there is. *)
Definition get_settings (g_config : UserConfig) (this : UserConfig)
    (context : Context) : Settings :=
  match context with
  | Hub => hub_cam g_config
  | Room => room_cam g_config
  | Quest => quest_cam g_config
  end.

Definition get_config (g_config : UserConfig) : UserConfig := g_config.

(** The interval of [clamp_fov]. *)
Definition fov_range_lower : float32 := of_int 30.
Definition fov_range_upper : float32 := of_int 120.

(** [clamp_fov], without its warning: [std::clamp] returns the lower
    bound when the value is below it, the upper bound when the value is
    above it, and the value otherwise (so a NaN passes). *)
Definition clamp_fov (value : float32) : float32 :=
  if ltb value fov_range_lower then fov_range_lower
  else if ltb fov_range_upper value then fov_range_upper
  else value.

(** A target fov of the valid range: an ordered value that [clamp_fov]
    leaves alone. *)
Definition valid_fov (value : float32) : bool :=
  SFleb (to_SF fov_range_lower) (to_SF value)
  && SFleb (to_SF value) (to_SF fov_range_upper).

End config.

(** ** [camera.cpp] *)

Module camera.
Import Float32 Memory.

(** *** Camera identifiers

    [enum class CameraID : uint32_t]; [update] reads one from memory, so
    every 32-bit value can occur. *)
Definition CameraID := Z.

Definition Normal : CameraID := 0.
Definition Sprint : CameraID := 3.
Definition Combat : CameraID := 83.
Definition BaseHub : CameraID := 85.
Definition BaseHubSprint : CameraID := 86.
Definition LivingQuarters : CameraID := 118.
Definition PrivateQuarters : CameraID := 119.
Definition PrivateSuite : CameraID := 120.
Definition SurveyorSet : CameraID := 147.
Definition Seliana : CameraID := 252.
Definition SelianaSprint : CameraID := 253.
Definition SelianaHub : CameraID := 254.
Definition SelianaHubSprint : CameraID := 255.
Definition SelianaRoom : CameraID := 256.

(** [std::ranges::contains]. *)
Definition contains (ids : list CameraID) (id : CameraID) : bool :=
  existsb (Z.eqb id) ids.

Definition set_hub_context_ids : list CameraID :=
  [BaseHub; BaseHubSprint; Seliana; SelianaSprint; SelianaHub;
   SelianaHubSprint].

Definition set_room_context_ids : list CameraID :=
  [LivingQuarters; PrivateQuarters; PrivateSuite; SelianaRoom].

Definition set_quest_context_ids : list CameraID :=
  [Normal; Sprint; Combat].

Definition sets_hub_context (id : CameraID) : bool :=
  contains set_hub_context_ids id.

Definition sets_room_context (id : CameraID) : bool :=
  contains set_room_context_ids id.

Definition sets_quest_context (id : CameraID) : bool :=
  contains set_quest_context_ids id.

(** *** The tracker *)

Record State := {
  context : Context;
  camera_id : CameraID;
}.

(** [g_state]'s initial value. *)
Definition initial_State : State :=
  {| context := Quest; camera_id := Normal |}.

Definition set_context (this : State) (c : Context) : State :=
  {| context := c; camera_id := camera_id this |}.

Definition set_camera_id (this : State) (id : CameraID) : State :=
  {| context := context this; camera_id := id |}.

(** [State::update] as the new value of [*this]: three independent [if]s
    in this order, then the identifier. The reference it returns is to
    [g_state], the object [camera::update] calls it on. *)
Definition State_update (this : State) (new_camera_id : CameraID) : State :=
  let this :=
    if sets_hub_context new_camera_id then set_context this Hub else this in
  let this :=
    if sets_room_context new_camera_id then set_context this Room else this in
  let this :=
    if sets_quest_context new_camera_id then set_context this Quest
    else this in
  set_camera_id this new_camera_id.

(** *** Parameters *)

Definition PI : float32 := of_ratio 31415927 10000000.

Record Params := {
  fov : float32;
  distance : float32;
  height : float32;
  shift : float32;
}.

Definition wf_Params (p : Params) : Prop :=
  wf (fov p) /\ wf (distance p) /\ wf (height p) /\ wf (shift p).

Definition default_hub_params : Params :=
  {| fov := of_int 53; distance := of_int 350; height := of_int 170;
     shift := of_int 0 |}.

Definition default_room_params : Params :=
  {| fov := of_int 51; distance := of_int 260; height := of_int 160;
     shift := neg (of_int 50) |}.

Definition default_quest_params : Params :=
  {| fov := of_int 53; distance := of_int 380; height := of_int 180;
     shift := of_int 0 |}.

Definition from_context (context : Context) : Params :=
  match context with
  | Hub => default_hub_params
  | Room => default_room_params
  | Quest => default_quest_params
  end.

Definition from_memory (m : memory) (view_params : Z) : Params :=
  {| fov := load32 m (view_params + 0x20);
     distance := neg (load32 m (view_params + 0x18));
     height := load32 m (view_params + 0x14);
     shift := load32 m (view_params + 0x10) |}.

Definition to_memory (this : Params) (m : memory) (view_params : Z)
    : memory :=
  let m := store32 m (view_params + 0x20) (fov this) in
  let m := store32 m (view_params + 0x18) (neg (distance this)) in
  let m := store32 m (view_params + 0x14) (height this) in
  store32 m (view_params + 0x10) (shift this).

(** *** The log line

    [log_adjustment] prints, for each field, the old value and, when
    the new one differs from it as a float, the new one. The line is
    kept as its fields, not as text. *)
Record LogLine := {
  log_context : string;
  log_camera_id : CameraID;
  log_fields : list (string * float32 * option float32);
}.

Definition log_param_adjustment (name : string)
    (old_value new_value : float32) : string * float32 * option float32 :=
  (name, old_value,
   if neqb old_value new_value then Some new_value else None).

Definition log_adjustment (state : State)
    (current_params new_params : Params) : LogLine :=
  {| log_context := as_str (context state);
     log_camera_id := camera_id state;
     log_fields :=
       [log_param_adjustment "fov" (fov current_params) (fov new_params);
        log_param_adjustment "distance" (distance current_params)
          (distance new_params);
        log_param_adjustment "height" (height current_params)
          (height new_params);
        log_param_adjustment "shift" (shift current_params)
          (shift new_params)] |}.

(** The state [camera::update] works on: the process memory, the
    tracker singleton and the log sink. *)
Record World := {
  mem : memory;
  g_state : State;
  log : list LogLine;
}.

Section Libm.

(** [std::tan] and [std::atan] at [float]. *)
Variables tanf atanf : float32 -> float32.

Definition proj_scale_from_fov (fov : float32) : float32 :=
  tanf (mul (div PI (of_int 360)) fov).

Definition fov_from_proj_scale (proj_scale : float32) : float32 :=
  mul (div (of_int 360) PI) (atanf proj_scale).

Definition adjust (g_config : config.UserConfig) (this : Params)
    (state : State) : Params :=
  if camera_id state =? SurveyorSet then this
  else
    let config := config.get_config g_config in
    let settings := config.get_settings g_config config (context state) in
    let base_params := from_context (context state) in
    let current_proj := proj_scale_from_fov (fov this) in
    let base_proj := proj_scale_from_fov (fov base_params) in
    let target_proj := proj_scale_from_fov (config.fov settings) in
    let adjusted_fov :=
      fov_from_proj_scale (div (mul target_proj current_proj) base_proj) in
    let disable_shift :=
      config.disable_room_shift config
      && sets_room_context (camera_id state) in
    {| fov := round adjusted_fov;
       distance := round (mul (distance this) (config.distance settings));
       height := round (mul (height this) (config.height settings));
       shift := if disable_shift then of_int 0 else shift this |}.

(** *** The entry point *)

Definition update (g_config : config.UserConfig) (w : World)
    (camera_address : Z) : World :=
  let param_address := camera_address + 0x5d0 in
  let current_params := from_memory (mem w) param_address in
  let camera_id := load32 (mem w) (camera_address + 0x13b8) in
  let state := State_update (g_state w) camera_id in
  let new_params := adjust g_config current_params state in
  {| mem := to_memory new_params (mem w) param_address;
     g_state := state;
     log := log w ++ [log_adjustment state current_params new_params] |}.

End Libm.

End camera.

(** ** Vocabulary of the statements *)

Module Spec.
Import Float32 Memory camera.

(** The per-context field of a configuration [c] itself. *)
Definition settings_of (c : config.UserConfig) (context : Context)
    : config.Settings :=
  match context with
  | Hub => config.hub_cam c
  | Room => config.room_cam c
  | Quest => config.quest_cam c
  end.

(** The sixteen addresses of the four parameter fields of the camera
    object at [camera_address]. *)
Definition field_offsets : list Z := [0x10; 0x14; 0x18; 0x20].

Definition bytes_of_field (camera_address off : Z) : list Z :=
  map (fun i => wrap64 (camera_address + 0x5d0 + off + i)) [0; 1; 2; 3].

Definition written_addresses (camera_address : Z) : list Z :=
  flat_map (bytes_of_field camera_address) field_offsets.

(** Stand-ins for [std::tan] and [std::atan] where a statement is run on
    an input: the first-order approximations [tan x = x], [atan x = x]. *)
Definition tan1 (x : float32) : float32 := x.
Definition atan1 (x : float32) : float32 := x.

(** A configuration file that sets [fov = 70], [distance = 1.2] for all
    contexts and disables the room shift. *)
Definition sample_settings : config.Settings :=
  {| config.fov := of_int 70;
     config.distance := of_ratio 12 10;
     config.height := of_int 1 |}.

Definition sample_config : config.UserConfig :=
  {| config.hub_cam := sample_settings;
     config.room_cam := sample_settings;
     config.quest_cam := sample_settings;
     config.disable_room_shift := true |}.

(** The tracker after a private-suite camera and then a camera of none
    of the three sets. *)
Definition room_then_unlisted : State :=
  State_update (State_update initial_State PrivateSuite) 1.

Definition sample_memory : memory := fun _ => Byte.x00.

(** The tracker states [camera::update] can leave in [g_state]: the
    initial one, and those [State::update] makes of them. *)
Inductive reachable : State -> Prop :=
| reachable_initial : reachable initial_State
| reachable_update st id :
    reachable st -> reachable (State_update st id).




(** Whether [n - 0.5] and [n + 0.5] decode to positive finite floats of
    exactly these values. *)
Definition half_points_ok (n : Z) : bool :=
  match to_SF (half_below n), to_SF (half_above n) with
  | S754_finite false m1 e1, S754_finite false m2 e2 =>
      (Zpos m1 * 2 ^ (e1 + 149) =? (2 * n - 1) * 2 ^ 148)
      && (Zpos m2 * 2 ^ (e2 + 149) =? (2 * n + 1) * 2 ^ 148)
      && (-149 <=? e1) && (-149 <=? e2)
  | _, _ => false
  end.

Definition whole_degrees : list Z := map Z.of_nat (seq 30 91).

End Spec.

(** ** [std::clamp] on floats *)

Module Std.
Import Float32.

(** [std::clamp(v, lo, hi)]: [lo] when [v < lo], else [hi] when [hi < v],
    else [v]. *)
Definition clamp (v lo hi : float32) : float32 :=
  if ltb v lo then lo else if ltb hi v then hi else v.

(** [lo <= v && v <= hi] as floats: false when [v] is a NaN. *)
Definition in_range (v lo hi : float32) : bool :=
  SFleb (to_SF lo) (to_SF v) && SFleb (to_SF v) (to_SF hi).

Definition is_nan (v : float32) : bool :=
  match to_SF v with
  | S754_nan => true
  | _ => false
  end.

End Std.

(** ** [config.cpp]: reading the configuration file

    The TOML library is not part of the repository. A table is the list of
    its entries in iteration order, with distinct keys; what [value<T>()]
    converts a node to and how the type of a node prints are the library's,
    and are taken as they come. *)

Module toml.

Unset Elimination Schemes.
Inductive node (V : Type) : Type :=
| table_node : list (string * node V) -> node V
| value_node : V -> node V.
Set Elimination Schemes.

Arguments table_node {V} _.
Arguments value_node {V} _.

Definition table (V : Type) : Type := list (string * node V).

(** [table[key]]: the node stored under [key], if there is one. *)
Definition get {V : Type} (t : table V) (key : string) : option (node V) :=
  option_map snd (find (fun kv => String.eqb (fst kv) key) t).

(** [node_view::as_table], which is null when [is_table()] is false. *)
Definition as_table {V : Type} (n : node V) : option (table V) :=
  match n with
  | table_node entries => Some entries
  | value_node _ => None
  end.

(** [node_view::value<float>()], [node_view::value<bool>()] and the text
    [operator<<] prints for [node_view::type()]. *)
Record Library (V : Type) : Type := {
  value_float : node V -> option Float32.float32;
  value_bool : node V -> option bool;
  type_str : node V -> string;
}.

Arguments value_float {V} _ _.
Arguments value_bool {V} _ _.
Arguments type_str {V} _ _.

(** What [toml::parse_file] returns. *)
Inductive parse_result (V : Type) : Type :=
| failed (description source : string)
| parsed (t : table V).

Arguments failed {V} _ _.
Arguments parsed {V} _.

End toml.

Module config_file.
Import Float32 config.

(** *** The log

    A line is kept as the message it carries; the level is that of its
    [LOGLINE]. *)
Inductive Level := DEBUG | INFO | WARN | ERR.

Inductive Message :=
| Parsing_config_file (path : string)
| Parse_error (description : string)
| Parse_error_occured_on (source : string)
| Expected_to_be (trace expected_type got_type : string)
| Unknown_key (trace : string)
| FOV_clamped
| Keeping_existing_settings.

Definition level_of (m : Message) : Level :=
  match m with
  | Parsing_config_file _ => DEBUG
  | Parse_error _ | Parse_error_occured_on _ | Expected_to_be _ _ _ => ERR
  | Unknown_key _ | FOV_clamped | Keeping_existing_settings => WARN
  end.

(** A computation that logs: its result and the lines it wrote, in
    order. *)
Definition Logged (A : Type) : Type := (A * list Message)%type.

Definition ret {A : Type} (a : A) : Logged A := (a, []).

Definition bind {A B : Type} (c : Logged A) (k : A -> Logged B) : Logged B :=
  let '(a, l1) := c in
  let '(b, l2) := k a in
  (b, l1 ++ l2).

Definition logline (m : Message) : Logged unit := (tt, [m]).

Notation "x <- c1 ;; c2" := (bind c1 (fun x => c2))
  (at level 61, c1 at next level, right associativity).
Notation "c1 ;;; c2" := (bind c1 (fun _ => c2))
  (at level 61, right associativity).

(** *** Traces *)

Unset Elimination Schemes.
Inductive Trace := mkTrace (parent : option Trace) (key : string).
Set Elimination Schemes.

(** [operator<<] on a trace: the keys from the root, joined by dots. *)
Fixpoint trace_str (trace : Trace) : string :=
  match trace with
  | mkTrace (Some parent) key => trace_str parent ++ "." ++ key
  | mkTrace None key => key
  end.

Section WithLibrary.

Context {V : Type} (L : toml.Library V).

Definition type_name_bool : string := "boolean".
Definition type_name_float : string := "floating-point".

(** [read_value<T>], with [value<T>()] and [type_name<T>()] passed. *)
Definition read_value {T : Type} (value_as : toml.node V -> option T)
    (type_name : string) (table : toml.table V) (key : string)
    (trace : option Trace) : Logged (option T) :=
  let node_trace := mkTrace trace key in
  match toml.get table key with
  | None => ret None
  | Some node_view =>
      match value_as node_view with
      | None =>
          logline (Expected_to_be (trace_str node_trace) type_name
                     (toml.type_str L node_view)) ;;;
          ret None
      | Some value => ret (Some value)
      end
  end.

(** [from_table_at_key<T>], with [from_table<T>] passed. *)
Definition from_table_at_key {T : Type}
    (from_table : toml.table V -> option Trace -> T -> Logged T)
    (table : toml.table V) (key : string) (trace : option Trace)
    (defaults : T) : Logged T :=
  let node_trace := mkTrace trace key in
  match toml.get table key with
  | None => ret defaults
  | Some node_view =>
      match toml.as_table node_view with
      | None =>
          logline (Expected_to_be (trace_str node_trace) "table"
                     (toml.type_str L node_view)) ;;;
          ret defaults
      | Some sub => from_table sub (Some node_trace) defaults
      end
  end.

Fixpoint warn_unknown_keys (table : toml.table V)
    (expected_keys : list string) (trace : option Trace) : Logged unit :=
  match table with
  | [] => ret tt
  | (key, _) :: rest =>
      (if existsb (String.eqb key) expected_keys then ret tt
       else logline (Unknown_key (trace_str (mkTrace trace key)))) ;;;
      warn_unknown_keys rest expected_keys trace
  end.

(** [clamp_fov] with its warning, written when the clamped value differs
    from the value as a float. *)
Definition clamp_fov (value : float32) : Logged float32 :=
  let clamped := config.clamp_fov value in
  (if neqb clamped value then logline FOV_clamped else ret tt) ;;;
  ret clamped.

Definition Settings_expected_keys : list string :=
  ["fov"; "distance"; "height"; "shift"]%string.

(** [from_table<Settings>]: the three initialisers run in this order. *)
Definition from_table_Settings (table : toml.table V) (trace : option Trace)
    (defaults : Settings) : Logged Settings :=
  (match trace with
   | Some _ => warn_unknown_keys table Settings_expected_keys trace
   | None => ret tt
   end) ;;;
  read_fov <- read_value (toml.value_float L) type_name_float table "fov"
                trace ;;
  fov_value <- match read_fov with
               | Some v => clamped <- clamp_fov v ;; ret clamped
               | None => ret (fov defaults)
               end ;;
  read_distance <- read_value (toml.value_float L) type_name_float table
                     "distance" trace ;;
  read_height <- read_value (toml.value_float L) type_name_float table
                   "height" trace ;;
  ret {| fov := fov_value;
         distance := match read_distance with
                     | Some v => v
                     | None => distance defaults
                     end;
         height := match read_height with
                   | Some v => v
                   | None => height defaults
                   end |}.

Definition UserConfig_expected_keys : list string :=
  ["fov"; "distance"; "height"; "hub"; "room"; "quest";
   "disable_room_shift"]%string.

(** [UserConfig::from_file], given what [toml::parse_file] returned for
    the path. *)
Definition from_file (path : string) (parse_result : toml.parse_result V)
    : Logged (option UserConfig) :=
  logline (Parsing_config_file path) ;;;
  match parse_result with
  | toml.failed description source =>
      logline (Parse_error description) ;;;
      logline (Parse_error_occured_on source) ;;;
      ret None
  | toml.parsed table =>
      warn_unknown_keys table UserConfig_expected_keys None ;;;
      global_cam <- from_table_Settings table None default_Settings ;;
      let resolve_settings (context : Context) :=
        from_table_at_key from_table_Settings table (as_str context) None
          global_cam in
      hub <- resolve_settings Hub ;;
      room <- resolve_settings Room ;;
      quest <- resolve_settings Quest ;;
      read_flag <- read_value (toml.value_bool L) type_name_bool table
                     "disable_room_shift" None ;;
      ret (Some {| hub_cam := hub;
                   room_cam := room;
                   quest_cam := quest;
                   disable_room_shift := match read_flag with
                                         | Some b => b
                                         | None => false
                                         end |})
  end.

(** *** Reloading *)

Definition get_config_path (version : string) : option string :=
  (if String.prefix "314" version
   then Some "ICE/ntPC/plugins/CustomFOV.toml"
   else if String.prefix "421" version
   then Some "nativePC/plugins/CustomFOV.toml"
   else None)%string.

(** What the process sees of its surroundings during one call: the
    loader's [GameVersion], and for a path the time
    [std::filesystem::last_write_time] gives ([None] when it sets the
    error code) and what [toml::parse_file] returns. *)
Record Environment := {
  GameVersion : string;
  last_write_time : string -> option Z;
  parse_file : string -> toml.parse_result V;
}.

Definition is_supported_version (env : Environment) : bool :=
  match get_config_path (GameVersion env) with
  | Some _ => true
  | None => false
  end.

(** The two globals of [config.cpp]. *)
Record Globals := {
  g_config : UserConfig;
  g_config_last_write_time : option Z;
}.

Definition initial_Globals : Globals :=
  {| g_config := default_UserConfig; g_config_last_write_time := None |}.

Definition reload_config (env : Environment) (g : Globals)
    : Logged Globals :=
  match get_config_path (GameVersion env) with
  | None => ret g
  | Some path =>
      match last_write_time env path with
      | None => ret g
      | Some time =>
          if match g_config_last_write_time g with
             | Some last => time <=? last
             | None => false
             end
          then ret g
          else
            config_result <- from_file path (parse_file env path) ;;
            new_config <- match config_result with
                          | Some c => ret c
                          | None =>
                              logline Keeping_existing_settings ;;;
                              ret (g_config g)
                          end ;;
            ret {| g_config := new_config;
                   g_config_last_write_time := Some time |}
      end
  end.

End WithLibrary.

End config_file.

(** ** [dllmain.cpp]: the hooks

    SafetyHook is not part of the repository: the type of a hook, what
    [SafetyHookInline::create] does to the code it patches and the
    original game functions a hook calls are taken as they come. *)

Module dllmain.
Import Memory.

Inductive Message :=
| Function_does_not_match (target : Z)
| Unsupported_game_version
| Failed_to_create_hook (target : Z)
| Safetyhook_error (text : string) (ip : option Z)
| Resetting_hooks
| Attaching_plugin
| Success
| Plugin_detached.

Definition level_of (m : Message) : config_file.Level :=
  match m with
  | Function_does_not_match _ | Unsupported_game_version
  | Failed_to_create_hook _ | Safetyhook_error _ _ => config_file.ERR
  | Resetting_hooks | Attaching_plugin | Success | Plugin_detached =>
      config_file.INFO
  end.

Definition init_camera_bytes : list byte :=
  [Byte.x48; Byte.x89; Byte.x5c; Byte.x24; Byte.x08; Byte.x48; Byte.x89;
   Byte.x74; Byte.x24; Byte.x10; Byte.x57; Byte.x48; Byte.x83; Byte.xec;
   Byte.x20].

Definition update_camera_bytes : list byte :=
  [Byte.x48; Byte.x89; Byte.x5c; Byte.x24; Byte.x10; Byte.x48; Byte.x89;
   Byte.x74; Byte.x24; Byte.x18; Byte.x57; Byte.x48; Byte.x81; Byte.xec;
   Byte.x90; Byte.x00; Byte.x00; Byte.x00; Byte.x48; Byte.x8b; Byte.xd9].

(** [std::equal] of a range of bytes with the memory from [target] on: it
    stops at the first byte that differs. *)
Fixpoint equal (bytes : list byte) (m : memory) (target : Z) : bool :=
  match bytes with
  | [] => true
  | b :: rest =>
      if Byte.eqb b (load8 m target) then equal rest m (target + 1)
      else false
  end.

Definition check_bytes (m : memory) (target : Z) (bytes : list byte)
    : bool * list Message :=
  if equal bytes m target then (true, [])
  else (false, [Function_does_not_match target]).

Record Targets := {
  init_camera_addr : Z;
  update_camera_addr : Z;
}.

(** [Targets::check]: the second check runs only when the first one
    passed. *)
Definition check (m : memory) (this : Targets) : bool * list Message :=
  let '(ok_init, l1) := check_bytes m (init_camera_addr this)
                          init_camera_bytes in
  if ok_init then
    let '(ok_update, l2) := check_bytes m (update_camera_addr this)
                              update_camera_bytes in
    (ok_update, l1 ++ l2)
  else (false, l1).

Definition targets_421810 : Targets :=
  {| init_camera_addr := 0x141fa0fe0; update_camera_addr := 0x141fa6be0 |}.

(** [get_targets], given whether [config::is_supported_version] holds. *)
Definition get_targets (supported : bool) (m : memory)
    : option Targets * list Message :=
  if negb supported then (None, [Unsupported_game_version])
  else
    let targets := targets_421810 in
    let '(ok, l) := check m targets in
    if negb ok then (None, l) else (Some targets, l).

(** *** SafetyHook's errors and their lines *)

Inductive AllocatorError :=
| BAD_VIRTUAL_ALLOC
| NO_MEMORY_IN_RANGE
| other_allocator_error.

Inductive ErrorType :=
| BAD_ALLOCATION
| FAILED_TO_DECODE_INSTRUCTION
| SHORT_JUMP_IN_TRAMPOLINE
| IP_RELATIVE_INSTRUCTION_OUT_OF_RANGE
| UNSUPPORTED_INSTRUCTION_IN_TRAMPOLINE
| FAILED_TO_UNPROTECT
| NOT_ENOUGH_SPACE
| other_error.

Record Error := {
  type : ErrorType;
  allocator_error : AllocatorError;
  ip : Z;
}.

Definition log_safetyhook_allocator_error (error : AllocatorError)
    : string :=
  ("An error occurred when allocating memory: "
   ++ match error with
      | BAD_VIRTUAL_ALLOC => "VirtualAlloc failed."
      | NO_MEMORY_IN_RANGE => "No memory in range."
      | other_allocator_error => "Unknown allocator error."
      end)%string.

(** [log_safetyhook_error]: the text of the line and, when the line names
    it, the instruction pointer. *)
Definition log_safetyhook_error (error : Error) : Message :=
  match type error with
  | BAD_ALLOCATION =>
      Safetyhook_error
        (log_safetyhook_allocator_error (allocator_error error)) None
  | FAILED_TO_DECODE_INSTRUCTION =>
      Safetyhook_error "Failed to decode an instruction." (Some (ip error))
  | SHORT_JUMP_IN_TRAMPOLINE =>
      Safetyhook_error "The trampoline contains a short jump."
        (Some (ip error))
  | IP_RELATIVE_INSTRUCTION_OUT_OF_RANGE =>
      Safetyhook_error "An IP - relative instruction is out of range."
        (Some (ip error))
  | UNSUPPORTED_INSTRUCTION_IN_TRAMPOLINE =>
      Safetyhook_error
        "An unsupported instruction was found in the trampoline."
        (Some (ip error))
  | FAILED_TO_UNPROTECT =>
      Safetyhook_error "Failed to unprotect memory." (Some (ip error))
  | NOT_ENOUGH_SPACE =>
      Safetyhook_error "Not enough space to create the hook."
        (Some (ip error))
  | other_error => Safetyhook_error "Unknown safetyhook error." None
  end.

(** The two functions a hook can lead to. *)
Inductive Detour := hook_init_camera_fn | hook_update_camera_fn.

Section WithSafetyHook.

(** An installed [SafetyHookInline], and [SafetyHookInline::create]: on
    success the hook and the memory with the target patched. *)
Variable Hook : Type.
Variable create : memory -> Z -> Detour -> (Hook * memory) + Error.

(** The memory of the process and the two hook globals; an empty
    [SafetyHookInline] is [None]. *)
Record Process := {
  mem : memory;
  g_init_camera_hook : option Hook;
  g_update_camera_hook : option Hook;
}.

(** [create_hook]: the new memory, the new value of the hook passed by
    reference, and the result. *)
Definition create_hook (m : memory) (target : Z) (destination : Detour)
    (hook : option Hook) : (memory * option Hook * bool) * list Message :=
  match create m target destination with
  | inr error =>
      ((m, hook, false),
       [Failed_to_create_hook target; log_safetyhook_error error])
  | inl (h, m') => ((m', Some h, true), [])
  end.

Definition create_hooks (supported : bool) (p : Process)
    : (Process * bool) * list Message :=
  let '(targets, l0) := get_targets supported (mem p) in
  match targets with
  | None => ((p, false), l0)
  | Some targets =>
      let '((m1, init_hook, ok_init), l1) :=
        create_hook (mem p) (init_camera_addr targets) hook_init_camera_fn
          (g_init_camera_hook p) in
      if ok_init then
        let '((m2, update_hook, ok_update), l2) :=
          create_hook m1 (update_camera_addr targets) hook_update_camera_fn
            (g_update_camera_hook p) in
        (({| mem := m2; g_init_camera_hook := init_hook;
             g_update_camera_hook := update_hook |}, ok_update),
         l0 ++ l1 ++ l2)
      else
        (({| mem := m1; g_init_camera_hook := init_hook;
             g_update_camera_hook := g_update_camera_hook p |}, false),
         l0 ++ l1)
  end.

Definition reset_hooks (p : Process) : Process * list Message :=
  ({| mem := mem p; g_init_camera_hook := None;
      g_update_camera_hook := None |},
   [Resetting_hooks]).

Inductive Reason := DLL_PROCESS_ATTACH | DLL_PROCESS_DETACH | other_reason.

Definition DllMain (supported : bool) (reason : Reason) (p : Process)
    : (Process * bool) * list Message :=
  match reason with
  | DLL_PROCESS_ATTACH =>
      let '((p', ok), l) := create_hooks supported p in
      if negb ok then ((p', false), Attaching_plugin :: l)
      else ((p', true), Attaching_plugin :: l ++ [Success])
  | DLL_PROCESS_DETACH =>
      let '(p', l) := reset_hooks p in
      ((p', true), l ++ [Plugin_detached])
  | other_reason => ((p, true), [])
  end.

End WithSafetyHook.

Arguments mem {Hook} _.
Arguments g_init_camera_hook {Hook} _.
Arguments g_update_camera_hook {Hook} _.
Arguments create_hook {Hook} _ _ _ _ _.
Arguments create_hooks {Hook} _ _ _.
Arguments reset_hooks {Hook} _.
Arguments DllMain {Hook} _ _ _ _.

(** *** The two hook functions *)

Section WithGame.

Context {V : Type} (L : toml.Library V).
Variables tanf atanf : Float32.float32 -> Float32.float32.

(** The original game functions, reached through the hooks' trampolines:
    what they make of the memory. *)
Variable init_camera : memory -> Z -> Z -> memory.
Variable update_camera :
  memory -> Z -> Z -> Z -> Float32.float32 -> memory.

(** What the hook functions work on: the memory with the tracker and the
    camera's log lines, the globals of [config.cpp], and the lines of
    [config.cpp]. *)
Record Plugin := {
  world : camera.World;
  globals : config_file.Globals;
  messages : list config_file.Message;
}.

(** What both hook functions do once the original function has returned
    the memory [m]: [camera::update], with [g_config] as
    [reload_config] left it. *)
Definition after_original (p : Plugin) (g : config_file.Globals)
    (l : list config_file.Message) (m : memory) (camera : Z) : Plugin :=
  {| world :=
       camera.update tanf atanf (config_file.g_config g)
         {| camera.mem := m;
            camera.g_state := camera.g_state (world p);
            camera.log := camera.log (world p) |}
         camera;
     globals := g;
     messages := messages p ++ l |}.

Definition hook_init_camera (env : config_file.Environment) (p : Plugin)
    (camera camera_id : Z) : Plugin :=
  let '(g, l) := config_file.reload_config L env (globals p) in
  let m := init_camera (camera.mem (world p)) camera camera_id in
  after_original p g l m camera.

Definition hook_update_camera (env : config_file.Environment) (p : Plugin)
    (camera view_param interp_param : Z) (param4 : Float32.float32)
    : Plugin :=
  let '(g, l) := config_file.reload_config L env (globals p) in
  let m := update_camera (camera.mem (world p)) camera view_param
             interp_param param4 in
  after_original p g l m camera.

End WithGame.

End dllmain.

(** ** [dllmain.cpp] at the root of the tree: the plugin in one file

    The file has its own configuration (a target and an effects switch for
    each of the four parameters), its own transformation of the camera and
    its own two hook functions. [std::hypot] is a parameter, as [std::tan]
    and [std::atan] are; [table.at_path] is the TOML library's. *)

Module legacy.
Import Float32 Memory.

Definition vanilla_fov : float32 := of_int 53.
Definition vanilla_distance : float32 := of_int 380.
Definition vanilla_height : float32 := of_int 180.

Definition pi : float32 := of_ratio 31415927 10000000.

Definition vanilla_gradient : float32 := of_ratio 4985816 10000000.

Definition min_fov : float32 := of_int 10.
Definition max_fov : float32 := of_int 130.

Record Tweak := {
  target : float32;
  effects : bool;
}.

Module Config.

Record t := {
  live_reload : bool;
  fov : Tweak;
  distance : Tweak;
  height : Tweak;
  shift : Tweak;
}.

End Config.

(** [Config {}]. *)
Definition default_Config : Config.t :=
  {| Config.live_reload := true;
     Config.fov := {| target := vanilla_fov; effects := true |};
     Config.distance := {| target := vanilla_distance; effects := true |};
     Config.height := {| target := vanilla_height; effects := true |};
     Config.shift := {| target := of_int 0; effects := true |} |}.

Module Camera.

Record t := {
  shift : float32;
  height : float32;
  distance : float32;
  fov : float32;
}.

End Camera.

Inductive Message :=
| FOV_is_not_in_range
| Could_not_find_option (path : string)
| Option_has_invalid_type (path : string)
| Parsing_config_file (path : string)
| Failed_to_parse_config_file (description : string)
| Live_reload_was_disabled
| Camera_change (old_camera new_camera : Camera.t).

Definition level_of (m : Message) : config_file.Level :=
  match m with
  | FOV_is_not_in_range => config_file.WARN
  | Could_not_find_option _ | Option_has_invalid_type _
  | Failed_to_parse_config_file _ => config_file.ERR
  | Parsing_config_file _ => config_file.DEBUG
  | Live_reload_was_disabled | Camera_change _ _ => config_file.INFO
  end.

Definition clamp_fov (fov : float32) : float32 * list Message :=
  let clamped_fov := Std.clamp fov min_fov max_fov in
  (clamped_fov,
   if neqb clamped_fov fov then [FOV_is_not_in_range] else []).

Definition get_config_path (version : string) : option string :=
  (if String.prefix "314" version
   then Some "ICE/ntPC/plugins/CustomFOV.toml"
   else if String.prefix "421" version
   then Some "nativePC/plugins/CustomFOV.toml"
   else None)%string.

(** *** Reading the configuration *)

Section WithLibrary.

Context {V : Type} (L : toml.Library V).
Variable at_path : toml.table V -> string -> option (toml.node V).

Definition parse_option {T : Type} (value_as : toml.node V -> option T)
    (table : toml.table V) (path : string) : option T * list Message :=
  match at_path table path with
  | None => (None, [Could_not_find_option path])
  | Some node =>
      match value_as node with
      | None => (None, [Option_has_invalid_type path])
      | Some value => (Some value, [])
      end
  end.

Definition value_or {T : Type} (o : option T) (default : T) : T :=
  match o with
  | Some v => v
  | None => default
  end.

Definition parse_tweak (table : toml.table V) (name : string)
    (defaults : Tweak) : Tweak * list Message :=
  let '(t, l1) :=
    parse_option (toml.value_float L) table (name ++ ".target")%string in
  let '(e, l2) :=
    parse_option (toml.value_bool L) table (name ++ ".effects")%string in
  ({| target := value_or t (target defaults);
      effects := value_or e (effects defaults) |},
   l1 ++ l2).

(** [parse_config], given what [toml::parse_file] returned for the
    path. *)
Definition parse_config (path : string) (parse_result : toml.parse_result V)
    : Config.t * list Message :=
  let config := default_Config in
  match parse_result with
  | toml.failed description _ =>
      (config,
       [Parsing_config_file path; Failed_to_parse_config_file description])
  | toml.parsed table =>
      let '(r, l0) :=
        parse_option (toml.value_bool L) table "live_reload"%string in
      let '(f, l1) := parse_tweak table "fov"%string (Config.fov config) in
      let '(d, l2) :=
        parse_tweak table "distance"%string (Config.distance config) in
      let '(h, l3) :=
        parse_tweak table "height"%string (Config.height config) in
      let '(s, l4) :=
        parse_tweak table "shift"%string (Config.shift config) in
      ({| Config.live_reload := value_or r (Config.live_reload config);
          Config.fov := f;
          Config.distance := d;
          Config.height := h;
          Config.shift := s |},
       Parsing_config_file path :: l0 ++ l1 ++ l2 ++ l3 ++ l4)
  end.

(** The loader's [GameVersion] and what [toml::parse_file] returns for a
    path. *)
Record Environment := {
  GameVersion : string;
  parse_file : string -> toml.parse_result V;
}.

Definition load_config (env : Environment) (g_config : Config.t)
    : Config.t * list Message :=
  let '(g_config, l) :=
    match get_config_path (GameVersion env) with
    | Some path => parse_config path (parse_file env path)
    | None => (g_config, [])
    end in
  (g_config,
   l ++ if negb (Config.live_reload g_config)
        then [Live_reload_was_disabled] else []).

End WithLibrary.

Arguments GameVersion {V} _.
Arguments parse_file {V} _ _.

(** *** The camera *)

Definition read_camera (m : memory) (view_params : Z) : Camera.t :=
  {| Camera.shift := load32 m (view_params + 0x10);
     Camera.height := load32 m (view_params + 0x14);
     Camera.distance := neg (load32 m (view_params + 0x18));
     Camera.fov := load32 m (view_params + 0x20) |}.

Definition write_camera (m : memory) (view_params : Z) (camera : Camera.t)
    : memory :=
  let m := store32 m (view_params + 0x10) (Camera.shift camera) in
  let m := store32 m (view_params + 0x14) (Camera.height camera) in
  let m := store32 m (view_params + 0x18) (neg (Camera.distance camera)) in
  store32 m (view_params + 0x20) (Camera.fov camera).

(** A float as a condition: true unless it compares equal to zero. *)
Definition to_bool (w : float32) : bool := neqb w (of_int 0).

(** [std::signbit]. *)
Definition signbit (w : float32) : bool := Z.testbit w 31.

Definition tweak_default (value : float32) (tweak : Tweak)
    (reference : float32) : float32 :=
  let effect := if effects tweak then div value reference else of_int 1 in
  mul (target tweak) effect.

Section Libm.

Variables tanf atanf : float32 -> float32.
Variable hypotf : float32 -> float32 -> float32.

Definition gradient_from_fov (fov : float32) : float32 :=
  tanf (div (mul pi fov) (of_int 360)).

Definition fov_from_gradient (gradient : float32) : float32 :=
  mul (div (of_int 360) pi) (atanf gradient).

Definition tweak_fov (fov : float32) (tweak : Tweak)
    : float32 * list Message :=
  let effect :=
    if effects tweak then div (gradient_from_fov fov) vanilla_gradient
    else of_int 1 in
  clamp_fov
    (fov_from_gradient (mul effect (gradient_from_fov (target tweak)))).

Definition tweak_shift (shift : float32) (tweak : Tweak) : float32 :=
  let effect := if effects tweak then shift else of_int 0 in
  let sign := if signbit (target tweak) then -1 else 1 in
  if to_bool (target tweak)
  then mul (of_int sign) (hypotf (target tweak) effect)
  else effect.

Definition tweak_camera (camera : Camera.t) (config : Config.t)
    : Camera.t * list Message :=
  let s := tweak_shift (Camera.shift camera) (Config.shift config) in
  let h :=
    tweak_default (Camera.height camera) (Config.height config)
      vanilla_height in
  let d :=
    tweak_default (Camera.distance camera) (Config.distance config)
      vanilla_distance in
  let '(f, l) := tweak_fov (Camera.fov camera) (Config.fov config) in
  ({| Camera.shift := s; Camera.height := h; Camera.distance := d;
      Camera.fov := f |}, l).

(** *** The hook functions *)

(** The memory, the global [g_config] and the lines logged so far. *)
Record Plugin := {
  mem : memory;
  g_config : Config.t;
  log : list Message;
}.

Definition handle_camera_change (p : Plugin) (player_camera : Z) : Plugin :=
  let view_params := player_camera + 0x5d0 in
  let camera := read_camera (mem p) view_params in
  let '(new_camera, l) := tweak_camera camera (g_config p) in
  {| mem := write_camera (mem p) view_params new_camera;
     g_config := g_config p;
     log := log p ++ l ++ [Camera_change camera new_camera] |}.

Context {V : Type} (L : toml.Library V).
Variable at_path : toml.table V -> string -> option (toml.node V).

(** The game's two functions, as what they do to the memory. *)
Variable init_camera_original : memory -> Z -> Z -> memory.
Variable set_camera_original : memory -> Z -> Z -> Z -> float32 -> memory.

Definition init_camera_hook (env : Environment) (p : Plugin)
    (player_camera camera_id : Z) : Plugin :=
  let p :=
    if Config.live_reload (g_config p)
    then
      let '(g, l) := load_config L at_path env (g_config p) in
      {| mem := mem p; g_config := g; log := log p ++ l |}
    else p in
  let p :=
    {| mem := init_camera_original (mem p) player_camera camera_id;
       g_config := g_config p;
       log := log p |} in
  handle_camera_change p player_camera.

Definition set_camera_hook (p : Plugin)
    (player_camera view_param interpolation_param : Z) (param4 : float32)
    : Plugin :=
  let p :=
    {| mem :=
         set_camera_original (mem p) player_camera view_param
           interpolation_param param4;
       g_config := g_config p;
       log := log p |} in
  handle_camera_change p player_camera.

(** A call of one of the two hook functions by the game. *)
Inductive Call :=
| Init_camera (player_camera camera_id : Z)
| Set_camera (player_camera view_param interpolation_param : Z)
    (param4 : float32).

(** The calls of a list, oldest first, each with the environment it is
    made in. *)
Definition call (p : Plugin) (c : Environment * Call) : Plugin :=
  match c with
  | (env, Init_camera player_camera camera_id) =>
      init_camera_hook env p player_camera camera_id
  | (_, Set_camera player_camera view_param interpolation_param param4) =>
      set_camera_hook p player_camera view_param interpolation_param param4
  end.

Definition calls (p : Plugin) (cs : list (Environment * Call)) : Plugin :=
  fold_left call cs p.

End Libm.

End legacy.

(** ** Vocabulary of the statements on the tracker *)

Module TrackerSpec.
Import camera.

(** An identifier of one of the three sets. *)
Definition listed (id : CameraID) : bool :=
  sets_hub_context id || sets_room_context id || sets_quest_context id.

(** The most recent identifier of a sequence, oldest first, that is of
    one of the three sets. *)
Fixpoint last_listed (ids : list CameraID) : option CameraID :=
  match ids with
  | [] => None
  | id :: rest =>
      match last_listed rest with
      | Some later => Some later
      | None => if listed id then Some id else None
      end
  end.

(** [State::update] called once for each identifier of a sequence. *)
Definition updates (st : State) (ids : list CameraID) : State :=
  fold_left State_update ids st.

End TrackerSpec.

(** ** Vocabulary of the statements on the hooks *)

Module HookSpec.
Import Memory.

(** The memory holds [bytes] from [target] on. *)
Definition holds (m : memory) (target : Z) (bytes : list byte) : Prop :=
  forall i : nat,
    (i < List.length bytes)%nat ->
    load8 m (target + Z.of_nat i) = nth i bytes Byte.x00.

(** Both functions of the game start with the bytes the plugin expects. *)
Definition signatures_hold (m : memory) : Prop :=
  holds m 0x141fa0fe0 dllmain.init_camera_bytes
  /\ holds m 0x141fa6be0 dllmain.update_camera_bytes.

(** A memory that holds the two signatures, and one that holds the first
    only. *)
Definition put_bytes (m : memory) (target : Z) (bytes : list byte)
    : memory :=
  store_bytes m target bytes.

Definition sample_game_memory : memory :=
  put_bytes
    (put_bytes (fun _ => Byte.x00) 0x141fa0fe0 dllmain.init_camera_bytes)
    0x141fa6be0 dllmain.update_camera_bytes.

(** A stand-in for SafetyHook: a hook is the address it patches; creating
    the hook of the update function fails, creating the other one writes
    a jump opcode at the target. *)
Definition sample_create (m : memory) (target : Z)
    (destination : dllmain.Detour) : (Z * memory) + dllmain.Error :=
  match destination with
  | dllmain.hook_init_camera_fn => inl (target, store8 m target Byte.xe9)
  | dllmain.hook_update_camera_fn =>
      inr {| dllmain.type := dllmain.NOT_ENOUGH_SPACE;
             dllmain.allocator_error := dllmain.other_allocator_error;
             dllmain.ip := target |}
  end.

Definition sample_Process : dllmain.Process Z :=
  {| dllmain.mem := sample_game_memory;
     dllmain.g_init_camera_hook := None;
     dllmain.g_update_camera_hook := None |}.

End HookSpec.

(** ** Vocabulary of the statements on the configuration file *)

Module ConfigSpec.
Import Float32 config config_file.

(** A fov that is in the valid range, or a NaN. *)
Definition fov_ok (f : float32) : Prop :=
  valid_fov f = true \/ Std.is_nan f = true.

Definition UserConfig_ok (c : UserConfig) : Prop :=
  fov_ok (fov (hub_cam c)) /\ fov_ok (fov (room_cam c))
  /\ fov_ok (fov (quest_cam c)).

Section WithLibrary.

Context {V : Type} (L : toml.Library V).

(** The float stored under [key] in a table, when there is an entry and
    [value<float>()] converts it. *)
Definition lookup_float (t : toml.table V) (key : string) : option float32 :=
  match toml.get t key with
  | Some n => toml.value_float L n
  | None => None
  end.

(** The same in the table stored under the name of a context, when there
    is one. *)
Definition lookup_float_in (t : toml.table V) (context : Context)
    (key : string) : option float32 :=
  match toml.get t (as_str context) with
  | Some n =>
      match toml.as_table n with
      | Some sub => lookup_float sub key
      | None => None
      end
  | None => None
  end.

(** The first of two optional values that is there, else the default. *)
Definition first_of {A : Type} (a b : option A) (default : A) : A :=
  match a, b with
  | Some x, _ => x
  | None, Some y => y
  | None, None => default
  end.

(** The settings [from_table<Settings>] makes of a table and of defaults,
    without the log. *)
Definition settings_from (t : toml.table V) (defaults : Settings)
    : Settings :=
  {| fov := match lookup_float t "fov" with
            | Some v => config.clamp_fov v
            | None => fov defaults
            end;
     distance := match lookup_float t "distance" with
                 | Some v => v
                 | None => distance defaults
                 end;
     height := match lookup_float t "height" with
               | Some v => v
               | None => height defaults
               end |}.

(** An order on optional file times: nothing recorded comes first. *)
Definition time_le (a b : option Z) : Prop :=
  match a, b with
  | None, _ => True
  | Some _, None => False
  | Some x, Some y => x <= y
  end.

(** [reload_config] called once for each of a list of surroundings, in
    order; the log is dropped. *)
Definition run_reloads (envs : list (Environment (V := V))) (g : Globals)
    : Globals :=
  fold_left (fun g env => fst (reload_config L env g)) envs g.

End WithLibrary.

(** A stand-in for the library where a statement is run on an input:
    the values are floats, booleans and strings, and a conversion succeeds
    on a value of its own kind only. *)
Inductive sample_value :=
| sample_float (f : float32)
| sample_bool (b : bool)
| sample_string (s : string).

Definition sample_Library : toml.Library sample_value :=
  {| toml.value_float := fun n =>
       match n with
       | toml.value_node (sample_float f) => Some f
       | _ => None
       end;
     toml.value_bool := fun n =>
       match n with
       | toml.value_node (sample_bool b) => Some b
       | _ => None
       end;
     toml.type_str := fun n =>
       (match n with
        | toml.table_node _ => "table"
        | toml.value_node (sample_float _) => "floating-point"
        | toml.value_node (sample_bool _) => "boolean"
        | toml.value_node (sample_string _) => "string"
        end)%string |}.

(** A file with a key that is not known and nothing else. *)
Definition sample_unknown_table : toml.table sample_value :=
  [("fob"%string, toml.value_node (sample_float (of_int 90)))].

(** Surroundings in which the file was written at time [5] and does not
    parse. *)
Definition sample_broken_Environment : Environment (V := sample_value) :=
  {| GameVersion := "421810";
     last_write_time := fun _ => Some 5;
     parse_file := fun _ => toml.failed "bad" "line 1" |}.

(** A file that asks for a fov of [200] at the top level, and the
    configuration it gives. *)
Definition sample_wide_table : toml.table sample_value :=
  [("fov"%string, toml.value_node (sample_float (of_int 200)))].

Definition sample_wide_Settings : Settings :=
  {| fov := of_int 120; distance := of_int 1; height := of_int 1 |}.

Definition sample_wide_config : UserConfig :=
  {| hub_cam := sample_wide_Settings;
     room_cam := sample_wide_Settings;
     quest_cam := sample_wide_Settings;
     disable_room_shift := false |}.

End ConfigSpec.

(** ** Vocabulary of the statements on the plugin in one file *)

Module LegacySpec.
Import Float32.

(** A stand-in for [at_path] that finds nothing, surroundings in which
    the file does not parse, and a plugin whose live reload is off. *)
Definition sample_at_path (t : toml.table ConfigSpec.sample_value)
    (path : string) : option (toml.node ConfigSpec.sample_value) :=
  None.

Definition sample_broken_Environment
    : legacy.Environment (V := ConfigSpec.sample_value) :=
  {| legacy.GameVersion := "421810";
     legacy.parse_file := fun _ => toml.failed "bad" "line 1" |}.

Definition sample_Config : legacy.Config.t :=
  {| legacy.Config.live_reload := false;
     legacy.Config.fov := {| legacy.target := of_int 90;
                             legacy.effects := true |};
     legacy.Config.distance := {| legacy.target := of_int 400;
                                  legacy.effects := false |};
     legacy.Config.height := {| legacy.target := of_int 180;
                                legacy.effects := true |};
     legacy.Config.shift := {| legacy.target := neg (of_int 0);
                               legacy.effects := true |} |}.

Definition sample_Plugin : legacy.Plugin :=
  {| legacy.mem := Spec.sample_memory;
     legacy.g_config := sample_Config;
     legacy.log := [] |}.

(** Stand-ins for the game's two functions, which change nothing, and for
    [std::hypot]. *)
Definition sample_init_camera (m : Memory.memory) (camera camera_id : Z)
    : Memory.memory := m.

Definition sample_set_camera (m : Memory.memory)
    (camera view_param interpolation_param : Z) (param4 : float32)
    : Memory.memory := m.

Definition sample_hypot (x y : float32) : float32 := x.

End LegacySpec.

(** ** The classifier *)

Section Classifier.
Import camera.

Lemma contains_In ids id : contains ids id = true <-> In id ids.
Proof.
  unfold contains. rewrite existsb_exists. split.
  - intros (x & Hx & Heq). apply Z.eqb_eq in Heq. now subst.
  - intros H. exists id. split; [exact H | apply Z.eqb_refl].
Qed.

Lemma contains_not_In ids id : contains ids id = false <-> ~ In id ids.
Proof.
  rewrite <- contains_In. destruct (contains ids id); intuition congruence.
Qed.

(** The three sets share no identifier. *)
Lemma sets_disjoint id :
  (sets_hub_context id = true -> sets_room_context id = false
                                 /\ sets_quest_context id = false)
  /\ (sets_room_context id = true -> sets_quest_context id = false).
Proof.
  unfold sets_hub_context, sets_room_context, sets_quest_context.
  split; intros H; apply contains_In in H; simpl in H;
    repeat (destruct H as [<- | H]; [now vm_compute |]); contradiction.
Qed.

Lemma State_update_camera_id this id :
  camera_id (State_update this id) = id.
Proof. reflexivity. Qed.

Lemma State_update_context this id :
  context (State_update this id) =
    if sets_quest_context id then Quest
    else if sets_room_context id then Room
    else if sets_hub_context id then Hub
    else context this.
Proof.
  unfold State_update.
  destruct (sets_quest_context id), (sets_room_context id),
    (sets_hub_context id); reflexivity.
Qed.

(** C3: [State::update] sets the context to [Hub] for an identifier of
    the hub set, to [Room] for one of the room set, to [Quest] for one of
    the quest set, keeps the prior context for an identifier of none of
    them, and always stores the new identifier. *)
Theorem State_update_classifies (this : State) (new_id : CameraID) :
  camera_id (State_update this new_id) = new_id
  /\ (In new_id set_hub_context_ids ->
      context (State_update this new_id) = Hub)
  /\ (In new_id set_room_context_ids ->
      context (State_update this new_id) = Room)
  /\ (In new_id set_quest_context_ids ->
      context (State_update this new_id) = Quest)
  /\ (~ In new_id set_hub_context_ids ->
      ~ In new_id set_room_context_ids ->
      ~ In new_id set_quest_context_ids ->
      context (State_update this new_id) = context this).
Proof.
  rewrite State_update_context.
  destruct (sets_disjoint new_id) as [Hhub Hroom].
  unfold sets_hub_context, sets_room_context, sets_quest_context in *.
  repeat split.
  - intros H. apply contains_In in H.
    destruct (Hhub H) as [-> ->]. now rewrite H.
  - intros H. apply contains_In in H.
    rewrite (Hroom H). now rewrite H.
  - intros H. apply contains_In in H. now rewrite H.
  - intros Hh Hr Hq.
    apply contains_not_In in Hh, Hr, Hq. now rewrite Hh, Hr, Hq.
Qed.

End Classifier.

(** ** The configuration accessor *)

Section Config.
Import config.

(** C10: [UserConfig::get_settings] returns the field of the global
    [g_config] for the context, whatever instance it is called on; the
    instance's own field can differ from what is returned. *)
Theorem get_settings_reads_global :
  (forall (g_config c : UserConfig) (ctx : Context),
      get_settings g_config c ctx = Spec.settings_of g_config ctx)
  /\ (forall (g_config c c' : UserConfig) (ctx : Context),
      get_settings g_config c ctx = get_settings g_config c' ctx)
  /\ (forall ctx : Context,
      get_settings default_UserConfig Spec.sample_config ctx
      <> Spec.settings_of Spec.sample_config ctx).
Proof.
  split; [| split].
  - intros g c []; reflexivity.
  - intros g c c' []; reflexivity.
  - intros [] H; vm_compute in H; discriminate H.
Qed.

End Config.

(** ** The parameter transform *)

Section Transform.
Import Float32 camera.

Variables tanf atanf : float32 -> float32.

Lemma adjust_not_surveyor g this st :
  camera_id st <> SurveyorSet ->
  adjust tanf atanf g this st =
    {| fov :=
         round
           (fov_from_proj_scale atanf
              (div
                 (mul
                    (proj_scale_from_fov tanf
                       (config.fov (Spec.settings_of g (context st))))
                    (proj_scale_from_fov tanf (fov this)))
                 (proj_scale_from_fov tanf (fov (from_context (context st))))));
       distance :=
         round (mul (distance this)
                  (config.distance (Spec.settings_of g (context st))));
       height :=
         round (mul (height this)
                  (config.height (Spec.settings_of g (context st))));
       shift :=
         if config.disable_room_shift g && sets_room_context (camera_id st)
         then of_int 0 else shift this |}.
Proof.
  intros H. unfold adjust.
  apply Z.eqb_neq in H. rewrite H.
  destruct (context st); reflexivity.
Qed.

Lemma adjust_surveyor g this st :
  camera_id st = SurveyorSet -> adjust tanf atanf g this st = this.
Proof.
  intros H. unfold adjust. now rewrite H.
Qed.

(** C2: with the surveyor identifier tracked, [adjust] returns its input,
    all four fields bit for bit, whatever the input, the configuration and
    the tracked context. *)
Theorem adjust_surveyor_unchanged (g : config.UserConfig) (this : Params)
    (st : State) :
  camera_id st = SurveyorSet ->
  adjust tanf atanf g this st = this
  /\ fov (adjust tanf atanf g this st) = fov this
  /\ distance (adjust tanf atanf g this st) = distance this
  /\ height (adjust tanf atanf g this st) = height this
  /\ shift (adjust tanf atanf g this st) = shift this.
Proof.
  intros H. rewrite (adjust_surveyor g this st H). repeat split.
Qed.

(** C1, as the code has it: the shift becomes [0.0] when
    [disable_room_shift] is set and the tracked identifier is one of the
    room set, and is the input shift in every other case, whatever the
    tracked context. *)
Theorem adjust_shift_by_identifier (g : config.UserConfig) (this : Params)
    (st : State) :
  camera_id st <> SurveyorSet ->
  (config.disable_room_shift g = true /\
   In (camera_id st) set_room_context_ids ->
   shift (adjust tanf atanf g this st) = of_int 0)
  /\ (~ (config.disable_room_shift g = true /\
         In (camera_id st) set_room_context_ids) ->
      shift (adjust tanf atanf g this st) = shift this).
Proof.
  intros H. rewrite (adjust_not_surveyor _ _ _ H). cbn [shift].
  unfold sets_room_context. split.
  - intros [-> Hin]. apply contains_In in Hin. now rewrite Hin.
  - intros Hn.
    destruct (config.disable_room_shift g); [| reflexivity].
    destruct (contains set_room_context_ids (camera_id st)) eqn:E;
      [| reflexivity].
    exfalso. apply Hn. split; [reflexivity | now apply contains_In].
Qed.

(** C4: away from the surveyor camera, the adjusted fov is the rounding
    of [fov_from_proj_scale (target * current / base)], the three
    projection scales being those of the target fov of the context's
    settings, of the raw fov and of the context's baseline fov, with
    [proj_scale fov = tan (PI / 360 * fov)] and
    [fov proj = 360 / PI * atan proj]. *)
Theorem adjust_fov_formula (g : config.UserConfig) (this : Params)
    (st : State) :
  camera_id st <> SurveyorSet ->
  (forall x, proj_scale_from_fov tanf x = tanf (mul (div PI (of_int 360)) x))
  /\ (forall p,
        fov_from_proj_scale atanf p = mul (div (of_int 360) PI) (atanf p))
  /\ fov (adjust tanf atanf g this st) =
       round
         (fov_from_proj_scale atanf
            (div
               (mul
                  (proj_scale_from_fov tanf
                     (config.fov (Spec.settings_of g (context st))))
                  (proj_scale_from_fov tanf (fov this)))
               (proj_scale_from_fov tanf (fov (from_context (context st)))))).
Proof.
  intros H. rewrite (adjust_not_surveyor _ _ _ H).
  repeat split.
Qed.

(** C6: away from the surveyor camera, the adjusted distance is
    [round (D * S)] and the adjusted height is [round (H * T)], for the
    raw distance [D] and height [H] and the distance scale [S] and
    height scale [T] of the context's settings. *)
Theorem adjust_distance_height (g : config.UserConfig) (this : Params)
    (st : State) :
  camera_id st <> SurveyorSet ->
  distance (adjust tanf atanf g this st) =
    round (mul (distance this)
             (config.distance (Spec.settings_of g (context st))))
  /\ height (adjust tanf atanf g this st) =
       round (mul (height this)
                (config.height (Spec.settings_of g (context st)))).
Proof.
  intros H. rewrite (adjust_not_surveyor _ _ _ H). split; reflexivity.
Qed.

End Transform.

(** ** Loads and stores *)

Section MemoryLemmas.
Import Memory.

Lemma wrap64_add_inj a i j :
  0 <= i < 2 ^ 64 -> 0 <= j < 2 ^ 64 ->
  wrap64 (a + i) = wrap64 (a + j) -> i = j.
Proof.
  unfold wrap64. change (2 ^ 64) with 18446744073709551616.
  intros Hi Hj H. Z.div_mod_to_equations. lia.
Qed.

Lemma wrap64_add_l a b d :
  wrap64 a = wrap64 b -> wrap64 (a + d) = wrap64 (b + d).
Proof.
  unfold wrap64. intros H.
  rewrite (Z.add_mod a), (Z.add_mod b), H by discriminate. reflexivity.
Qed.

Lemma store8_eq m a b k :
  store8 m a b k = if k =? wrap64 a then b else m k.
Proof. reflexivity. Qed.

(** The four bytes a 32-bit store writes. *)
Lemma store32_unfold m a w :
  store32 m a w =
    store8 (store8 (store8 (store8 m a (byte.of_Z w))
                      (a + 1) (byte.of_Z (Z.shiftr w 8)))
              (a + 1 + 1) (byte.of_Z (Z.shiftr (Z.shiftr w 8) 8)))
      (a + 1 + 1 + 1)
      (byte.of_Z (Z.shiftr (Z.shiftr (Z.shiftr w 8) 8) 8)).
Proof. reflexivity. Qed.

(** A 32-bit store changes no byte outside its four addresses. *)
Lemma store32_other m a w k :
  (forall i, 0 <= i < 4 -> k <> wrap64 (a + i)) ->
  store32 m a w k = m k.
Proof.
  intros H. rewrite store32_unfold, !store8_eq.
  pose proof (H 0 ltac:(lia)) as H0. pose proof (H 1 ltac:(lia)) as H1.
  pose proof (H 2 ltac:(lia)) as H2. pose proof (H 3 ltac:(lia)) as H3.
  replace (a + 1 + 1 + 1) with (a + 3) by lia.
  replace (a + 1 + 1) with (a + 2) by lia.
  rewrite Z.add_0_r in H0.
  apply Z.eqb_neq in H0, H1, H2, H3. now rewrite H0, H1, H2, H3.
Qed.

Lemma store32_at m a w i :
  0 <= i < 4 ->
  store32 m a w (wrap64 (a + i)) = byte.of_Z (Z.shiftr w (8 * i)).
Proof.
  intros Hi. rewrite store32_unfold, !store8_eq.
  replace (a + 1 + 1 + 1) with (a + 3) by lia.
  replace (a + 1 + 1) with (a + 2) by lia.
  replace (wrap64 a) with (wrap64 (a + 0)) by (f_equal; lia).
  rewrite !Z.shiftr_shiftr by lia.
  assert (Hne : forall j, 0 <= j < 4 -> i <> j ->
                  (wrap64 (a + i) =? wrap64 (a + j)) = false).
  { intros j Hj Hij. apply Z.eqb_neq. intros E.
    apply wrap64_add_inj in E; lia. }
  assert (E : i = 0 \/ i = 1 \/ i = 2 \/ i = 3) by lia.
  destruct E as [-> | [-> | [-> | ->]]];
    rewrite ?Z.eqb_refl, ?(Hne 3), ?(Hne 2), ?(Hne 1), ?Z.eqb_refl by lia;
    reflexivity.
Qed.

Lemma load32_unfold m a :
  load32 m a =
    le_combine [m (wrap64 (a + 0)); m (wrap64 (a + 1)); m (wrap64 (a + 2));
                m (wrap64 (a + 3))].
Proof. unfold load32, load_bytes, load8. now rewrite Z.add_0_r. Qed.

Lemma load32_range m a : 0 <= load32 m a < 2 ^ 32.
Proof.
  unfold load32.
  pose proof (le_combine_bound (load_bytes m a)) as H. exact H.
Qed.

(** Reading back what a 32-bit store wrote. *)
Lemma load32_store32_same m a w :
  load32 (store32 m a w) a = w mod 2 ^ 32.
Proof.
  rewrite load32_unfold, !store32_at by lia.
  change (8 * 0) with 0. rewrite Z.shiftr_0_r.
  change (2 ^ 32) with (2 ^ (Z.of_nat 4 * 8)).
  rewrite <- (le_combine_split 4 w).
  change (le_split 4 w) with
    [byte.of_Z w; byte.of_Z (Z.shiftr w 8);
     byte.of_Z (Z.shiftr (Z.shiftr w 8) 8);
     byte.of_Z (Z.shiftr (Z.shiftr (Z.shiftr w 8) 8) 8)].
  rewrite !Z.shiftr_shiftr by lia. reflexivity.
Qed.

(** A 32-bit load at least four bytes away from a 32-bit store, on the
    64-bit circle, does not see it. *)
Lemma load32_store32_far m a w b d :
  4 <= d <= 2 ^ 64 - 4 -> wrap64 b = wrap64 (a + d) ->
  load32 (store32 m a w) b = load32 m b.
Proof.
  intros Hd Hb. rewrite !load32_unfold.
  assert (H : forall i, 0 <= i < 4 ->
                store32 m a w (wrap64 (b + i)) = m (wrap64 (b + i))).
  { intros i Hi. apply store32_other. intros j Hj.
    rewrite (wrap64_add_l _ _ i Hb), <- Z.add_assoc. intros E.
    apply wrap64_add_inj in E; lia. }
  now rewrite !H by lia.
Qed.

End MemoryLemmas.

(** ** Bit patterns of floats *)

Section Float32Lemmas.
Import Float32.

Lemma wf_iff w : wf w <-> Z.land w (Z.ones 32) = w.
Proof.
  unfold wf. rewrite Z.land_ones by lia. split.
  - intros H. now apply Z.mod_small.
  - intros <-. apply Z.mod_pos_bound. lia.
Qed.

Lemma wf_lxor a b : wf a -> wf b -> wf (Z.lxor a b).
Proof.
  rewrite !wf_iff. intros Ha Hb.
  apply Z.bits_inj'. intros n _.
  apply (f_equal (fun x => Z.testbit x n)) in Ha, Hb.
  rewrite Z.land_spec in *. rewrite Z.lxor_spec.
  destruct (Z.testbit (Z.ones 32) n).
  - now rewrite andb_true_r.
  - rewrite andb_false_r in *. now rewrite <- Ha, <- Hb.
Qed.

Lemma sign_bits_cases s : sign_bits s = 0 \/ sign_bits s = 2 ^ 31.
Proof. destruct s; [right | left]; reflexivity. Qed.

(** Every encoded value is a 32-bit pattern. *)
Lemma of_SF_wf x : wf (of_SF x).
Proof.
  unfold wf. destruct x as [s | s | | s m e]; unfold of_SF;
    try destruct (Z.ltb_spec (Z.pos m) (2 ^ 23));
    try pose proof (sign_bits_cases s) as Hs;
    unfold infinity_bits, quiet_nan;
    change (2 ^ 31) with 2147483648 in *;
    change (2 ^ 32) with 4294967296 in *;
    change (2 ^ 23) with 8388608 in *;
    change (2 ^ 8) with 256 in *;
    try Z.div_mod_to_equations; lia.
Qed.

Lemma round_wf w : wf (round w).
Proof. apply of_SF_wf. Qed.

Lemma neg_wf w : wf w -> wf (neg w).
Proof. intros H. apply wf_lxor; [exact H | now vm_compute]. Qed.

(** Negating twice gives back the pattern. *)
Lemma neg_involutive w : neg (neg w) = w.
Proof.
  unfold neg. now rewrite Z.lxor_assoc, Z.lxor_nilpotent, Z.lxor_0_r.
Qed.

(** A decoded pattern is canonical. *)
Lemma to_SF_canonical w : canonical (to_SF w).
Proof.
  unfold to_SF.
  pose proof (Z.mod_pos_bound (w / 2 ^ 23) (2 ^ 8) eq_refl) as He.
  pose proof (Z.mod_pos_bound w (2 ^ 23) eq_refl) as Hm.
  set (e := (w / 2 ^ 23) mod 2 ^ 8) in *. set (m := w mod 2 ^ 23) in *.
  change (2 ^ 8) with 256 in He. change (2 ^ 23) with 8388608 in *.
  destruct (Z.eqb_spec e 0) as [E0 | E0].
  - destruct m as [| p | p] eqn:Em; cbn; try exact I. left. lia.
  - destruct (Z.eqb_spec e 255) as [E1 | E1].
    + destruct (m =? 0); exact I.
    + destruct (m + 8388608) as [| p | p] eqn:Em; cbn; try exact I.
      right. change (2 ^ 24) with 16777216. lia.
Qed.

Lemma testbit_31 w : wf w -> Z.testbit w 31 = (2 ^ 31 <=? w).
Proof.
  unfold wf. change (2 ^ 32) with (2 * 2 ^ 31). intros Hw.
  rewrite Z.testbit_odd, Z.shiftr_div_pow2 by lia.
  destruct (Z.leb_spec (2 ^ 31) w) as [H | H].
  - replace (w / 2 ^ 31) with 1; [reflexivity |].
    apply Z.div_unique with (w - 2 ^ 31); lia.
  - rewrite Z.div_small by lia. reflexivity.
Qed.

(** Decoding what was encoded gives back a canonical value. *)
Lemma to_SF_of_SF x : canonical x -> to_SF (of_SF x) = x.
Proof.
  assert (Hs : forall s r, 0 <= r < 2 ^ 31 ->
                 Z.testbit (sign_bits s + r) 31 = s
                 /\ ((sign_bits s + r) / 2 ^ 23) mod 2 ^ 8
                    = (r / 2 ^ 23) mod 2 ^ 8
                 /\ (sign_bits s + r) mod 2 ^ 23 = r mod 2 ^ 23).
  { intros s r Hr. split; [| split].
    - rewrite testbit_31.
      + destruct s; unfold sign_bits, sign_mask;
          change (2 ^ 31) with 2147483648 in *;
          [apply Z.leb_le | apply Z.leb_gt]; lia.
      + unfold wf. destruct (sign_bits_cases s) as [-> | ->];
          change (2 ^ 32) with 4294967296;
          change (2 ^ 31) with 2147483648 in *; lia.
    - destruct (sign_bits_cases s) as [-> | ->]; [now rewrite Z.add_0_l |].
      change (2 ^ 31) with (2 ^ 8 * 2 ^ 23) at 1.
      rewrite Z.add_comm, Z.div_add by discriminate.
      rewrite Z.add_comm. change (2 ^ 8) with (1 * 2 ^ 8) at 1.
      rewrite Z.add_comm. apply Z.mod_add. discriminate.
    - destruct (sign_bits_cases s) as [-> | ->]; [now rewrite Z.add_0_l |].
      change (2 ^ 31) with (2 ^ 8 * 2 ^ 23).
      rewrite Z.add_comm. apply Z.mod_add. discriminate. }
  destruct x as [s | s | | s m e]; intros Cx; unfold of_SF.
  - replace (sign_bits s) with (sign_bits s + 0) by lia.
    unfold to_SF. destruct (Hs s 0 ltac:(lia)) as (-> & -> & ->).
    reflexivity.
  - unfold to_SF.
    destruct (Hs s infinity_bits ltac:(now vm_compute)) as (-> & -> & ->).
    reflexivity.
  - reflexivity.
  - unfold canonical in Cx.
    change (2 ^ 24) with (2 * 2 ^ 23) in Cx.
    destruct (Z.ltb_spec (Zpos m) (2 ^ 23)) as [Hm | Hm].
    + assert (e = -149) by lia. subst e. unfold to_SF.
      destruct (Hs s (Zpos m)
                  ltac:(change (2 ^ 31) with (2 ^ 8 * 2 ^ 23); lia))
        as (-> & -> & ->).
      rewrite (Z.div_small (Zpos m)), (Z.mod_small (Zpos m)) by lia.
      reflexivity.
    + assert (He : 1 <= e + 150 <= 254) by lia.
      rewrite (Z.mod_small (e + 150)) by (change (2 ^ 8) with 256; lia).
      replace (Zpos m mod 2 ^ 23) with (Zpos m - 2 ^ 23)
        by (apply Z.mod_unique with 1; lia).
      rewrite <- Z.add_assoc. unfold to_SF.
      destruct (Hs s ((e + 150) * 2 ^ 23 + (Zpos m - 2 ^ 23))
                  ltac:(change (2 ^ 31) with (2 ^ 8 * 2 ^ 23);
                        change (2 ^ 8) with 256; nia))
        as (-> & -> & ->).
      rewrite (Z.add_comm (_ * _)), Z.div_add by discriminate.
      rewrite (Z.div_small (_ - _)) by lia. rewrite Z.add_0_l.
      rewrite (Z.mod_small (e + 150)) by (change (2 ^ 8) with 256; lia).
      rewrite Z.mod_add by discriminate.
      rewrite (Z.mod_small (_ - _)) by lia.
      destruct (Z.eqb_spec (e + 150) 0); [lia |].
      destruct (Z.eqb_spec (e + 150) 255); [lia |].
      replace (Zpos m - 2 ^ 23 + 2 ^ 23) with (Zpos m) by lia.
      f_equal. lia.
Qed.

(** Encoding what was decoded gives back the pattern, a NaN apart (the
    payload of a NaN is not decoded). *)
Lemma of_SF_to_SF w : wf w -> to_SF w <> S754_nan -> of_SF (to_SF w) = w.
Proof.
  intros Hw. unfold to_SF. rewrite (testbit_31 w Hw).
  pose proof (Z.div_mod w (2 ^ 23) ltac:(discriminate)) as Ew.
  pose proof (Z.mod_pos_bound w (2 ^ 23) eq_refl) as Bm.
  pose proof (Z.div_mod (w / 2 ^ 23) (2 ^ 8) ltac:(discriminate)) as Ee.
  pose proof (Z.mod_pos_bound (w / 2 ^ 23) (2 ^ 8) eq_refl) as Be.
  assert (Bh : 0 <= w / 2 ^ 23 / 2 ^ 8 < 2).
  { unfold wf in Hw. rewrite Z.div_div by lia.
    change (2 ^ 23 * 2 ^ 8) with (2 ^ 31). split.
    - apply Z.div_pos; lia.
    - apply Z.div_lt_upper_bound; [reflexivity | exact (proj2 Hw)]. }
  set (m := w mod 2 ^ 23) in *. set (e := (w / 2 ^ 23) mod 2 ^ 8) in *.
  set (h := w / 2 ^ 23 / 2 ^ 8) in *. set (q := w / 2 ^ 23) in *.
  assert (E : w = h * 2 ^ 31 + e * 2 ^ 23 + m).
  { change (2 ^ 31) with 2147483648. change (2 ^ 23) with 8388608 in *.
    change (2 ^ 8) with 256 in *. lia. }
  assert (Es : sign_bits (2 ^ 31 <=? w) = h * 2 ^ 31).
  { unfold sign_bits, sign_mask.
    change (2 ^ 31) with 2147483648 in *. change (2 ^ 23) with 8388608 in *.
    change (2 ^ 8) with 256 in *.
    destruct (Z.leb_spec 2147483648 w); lia. }
  clearbody m e h q. clear Ew Ee.
  change (2 ^ 23) with 8388608 in *. change (2 ^ 8) with 256 in *.
  change (2 ^ 31) with 2147483648 in *.
  destruct (Z.eqb_spec e 0) as [E0 | E0].
  - destruct m as [| p | p] eqn:Em; intros _; cbn [of_SF]; rewrite Es.
    + lia.
    + change (2 ^ 23) with 8388608.
      destruct (Z.ltb_spec (Zpos p) 8388608); lia.
    + lia.
  - destruct (Z.eqb_spec e 255) as [E1 | E1].
    + destruct (Z.eqb_spec m 0); [intros _ | congruence].
      cbn [of_SF]. rewrite Es. unfold infinity_bits. lia.
    + destruct (m + 8388608) as [| p | p] eqn:Em; try lia. intros _.
      cbn [of_SF]. rewrite Es. change (2 ^ 23) with 8388608.
      change (2 ^ 8) with 256.
      destruct (Z.ltb_spec (Zpos p) 8388608); [lia |].
      replace (e - 150 + 150) with e by lia.
      rewrite (Z.mod_small e) by lia.
      replace (Zpos p mod 8388608) with m
        by (apply Z.mod_unique with 1; lia).
      lia.
Qed.

End Float32Lemmas.

(** ** The memory layout *)

Section Layout.
Import Float32 Memory camera.

Ltac far d :=
  rewrite (load32_store32_far _ _ _ _ d)
    by first [lia | f_equal; lia].

(** What the four stores of [to_memory] leave in the block. *)
Lemma to_memory_fields p m a :
  load32 (to_memory p m a) (a + 0x20) = fov p mod 2 ^ 32
  /\ load32 (to_memory p m a) (a + 0x18) = neg (distance p) mod 2 ^ 32
  /\ load32 (to_memory p m a) (a + 0x14) = height p mod 2 ^ 32
  /\ load32 (to_memory p m a) (a + 0x10) = shift p mod 2 ^ 32.
Proof.
  unfold to_memory. repeat split.
  - far 0x10. far 0xc. far 8. apply load32_store32_same.
  - far 8. far 4. apply load32_store32_same.
  - far 4. apply load32_store32_same.
  - apply load32_store32_same.
Qed.

Lemma wf_mod w : wf w -> w mod 2 ^ 32 = w.
Proof. intros H. now apply Z.mod_small. Qed.

Lemma from_memory_to_memory p m a :
  wf_Params p -> from_memory (to_memory p m a) a = p.
Proof.
  intros (Hf & Hd & Hh & Hs).
  destruct (to_memory_fields p m a) as (Ef & Ed & Eh & Es).
  unfold from_memory. rewrite Ef, Ed, Eh, Es.
  rewrite !wf_mod by (assumption || now apply neg_wf).
  rewrite neg_involutive. now destruct p.
Qed.

Lemma from_memory_wf m a : wf_Params (from_memory m a).
Proof.
  unfold wf_Params, from_memory; cbn [fov distance height shift].
  split; [| split; [| split]]; try apply neg_wf; apply load32_range.
Qed.

Lemma adjust_wf tanf atanf g p st :
  wf_Params p -> wf_Params (adjust tanf atanf g p st).
Proof.
  intros Hp. unfold adjust.
  destruct (camera_id st =? SurveyorSet); [exact Hp |].
  destruct Hp as (_ & _ & _ & Hs).
  unfold wf_Params; cbn [fov distance height shift].
  split; [| split; [| split]]; try apply round_wf.
  destruct (_ && _); [now vm_compute | exact Hs].
Qed.

(** [to_memory] changes no byte outside the four fields. *)
Lemma to_memory_other p m a k :
  (forall off i, In off Spec.field_offsets -> 0 <= i < 4 ->
                 k <> wrap64 (a + off + i)) ->
  to_memory p m a k = m k.
Proof.
  intros H. unfold to_memory.
  rewrite !store32_other; [reflexivity | | | |];
    intros i Hi; apply H; simpl; auto.
Qed.

Lemma written_addresses_In base off i :
  In off Spec.field_offsets -> 0 <= i < 4 ->
  In (wrap64 (base + 0x5d0 + off + i)) (Spec.written_addresses base).
Proof.
  intros Hoff Hi. unfold Spec.written_addresses.
  apply in_flat_map. exists off. split; [exact Hoff |].
  unfold Spec.bytes_of_field. apply in_map_iff. exists i.
  split; [reflexivity |]. simpl. lia.
Qed.

(** C8: [update] reads the parameter block at [0x5d0] from the camera
    base, shift at [+0x10], height at [+0x14], distance at [+0x18]
    negated, fov at [+0x20], and the identifier as 32 bits at [0x13b8];
    it writes the adjusted parameters to the same places, the distance
    negated again; and reading back with [from_memory] what [to_memory]
    wrote of any parameters [p] at any block address [a] gives [p]. *)
Theorem layout_and_roundtrip (tanf atanf : float32 -> float32)
    (g : config.UserConfig) (w : World) (base : Z)
    (p : Params) (m : memory) (a : Z) :
  wf_Params p ->
  let current :=
    {| fov := load32 (mem w) (base + 0x5d0 + 0x20);
       distance := neg (load32 (mem w) (base + 0x5d0 + 0x18));
       height := load32 (mem w) (base + 0x5d0 + 0x14);
       shift := load32 (mem w) (base + 0x5d0 + 0x10) |} in
  let state :=
    State_update (g_state w) (load32 (mem w) (base + 0x13b8)) in
  let new := adjust tanf atanf g current state in
  let w' := update tanf atanf g w base in
  g_state w' = state
  /\ load32 (mem w') (base + 0x5d0 + 0x20) = fov new
  /\ load32 (mem w') (base + 0x5d0 + 0x18) = neg (distance new)
  /\ load32 (mem w') (base + 0x5d0 + 0x14) = height new
  /\ load32 (mem w') (base + 0x5d0 + 0x10) = shift new
  /\ from_memory (to_memory p m a) a = p.
Proof.
  intros Hp current state new w'.
  assert (Hnew : wf_Params new)
    by (apply adjust_wf, (from_memory_wf (mem w) (base + 0x5d0))).
  destruct Hnew as (Hf & Hd & Hh & Hs).
  destruct (to_memory_fields new (mem w) (base + 0x5d0))
    as (Ef & Ed & Eh & Es).
  rewrite !wf_mod in * by (assumption || now apply neg_wf).
  repeat split; try assumption.
  now apply from_memory_to_memory.
Qed.

(** C9: [update] writes the sixteen bytes of the four parameter fields
    and no other byte of the memory; in particular the camera identifier
    at [0x13b8] reads as before. *)
Theorem update_frame (tanf atanf : float32 -> float32)
    (g : config.UserConfig) (w : World) (base : Z) (k : Z) :
  ~ In k (Spec.written_addresses base) ->
  mem (update tanf atanf g w base) k = mem w k
  /\ load32 (mem (update tanf atanf g w base)) (base + 0x13b8)
     = load32 (mem w) (base + 0x13b8).
Proof.
  intros Hk. unfold update; cbn [mem]. split.
  - apply to_memory_other. intros off i Hoff Hi E. apply Hk.
    rewrite E. now apply written_addresses_In.
  - unfold to_memory.
    far 0x0dd8. far 0x0dd4. far 0x0dd0. far 0x0dc8. reflexivity.
Qed.

End Layout.

(** ** Rounding to a whole number *)

Section Rounding.
Import Float32 camera.

(** On finite numbers and zeros of canonical shape, the IEEE order is the
    order of the values. *)
Lemma SFltb_scaled x y :
  canonical x -> canonical y ->
  match x, y with
  | (S754_finite _ _ _ | S754_zero _), (S754_finite _ _ _ | S754_zero _) =>
      SFltb x y = true -> scaled x < scaled y
  | _, _ => True
  end.
Proof.
  assert (Hexp : forall m1 e1 m2 e2,
             canonical (S754_finite false m1 e1) ->
             canonical (S754_finite false m2 e2) -> e1 < e2 ->
             Zpos m1 * 2 ^ (e1 + 149) < Zpos m2 * 2 ^ (e2 + 149)).
  { intros m1 e1 m2 e2 C1 C2 Hlt. unfold canonical in C1, C2.
    change (2 ^ 23) with 8388608 in *. change (2 ^ 24) with 16777216 in *.
    replace (e2 + 149) with ((e1 + 149) + (e2 - e1)) by lia.
    rewrite (Z.pow_add_r 2 (e1 + 149) (e2 - e1)) by lia.
    assert (0 < 2 ^ (e1 + 149)) by (apply Z.pow_pos_nonneg; lia).
    assert (2 ^ 1 <= 2 ^ (e2 - e1)) by (apply Z.pow_le_mono_r; lia).
    change (2 ^ 1) with 2 in *.
    assert (B1 : Zpos m1 < 16777216) by lia.
    assert (B2 : 8388608 <= Zpos m2) by lia.
    clear C1 C2.
    set (P := 2 ^ (e1 + 149)) in *. set (Q := 2 ^ (e2 - e1)) in *.
    assert (Zpos m1 * P < 16777216 * P) by nia.
    assert (2 * P <= P * Q) by nia.
    assert (8388608 * (P * Q) <= Zpos m2 * (P * Q)) by nia.
    lia. }
  assert (Hcan : forall s m e,
             canonical (S754_finite s m e) ->
             canonical (S754_finite false m e)) by (intros; assumption).
  destruct x as [sx | sx | | sx mx ex], y as [sy | sy | | sy my ey];
    intros Cx Cy; try exact I; unfold SFltb; cbn [SFcompare scaled].
  - discriminate.
  - destruct sy; [discriminate |]. intros _.
    assert (0 < 2 ^ (ey + 149)) by (apply Z.pow_pos_nonneg; unfold canonical in Cy; lia).
    lia.
  - destruct sx; [| discriminate]. intros _.
    assert (0 < 2 ^ (ex + 149)) by (apply Z.pow_pos_nonneg; unfold canonical in Cx; lia).
    lia.
  - assert (0 < 2 ^ (ex + 149)) by (apply Z.pow_pos_nonneg; unfold canonical in Cx; lia).
    assert (0 < 2 ^ (ey + 149)) by (apply Z.pow_pos_nonneg; unfold canonical in Cy; lia).
    apply Hcan in Cx, Cy.
    destruct sx, sy; try discriminate.
    + destruct (Z.compare_spec ex ey) as [E | E | E]; try discriminate.
      * subst ey. rewrite Pos.compare_cont_spec. cbn [Pos.switch_Eq].
        destruct (Pos.compare_spec mx my) as [E | E | E]; try discriminate.
        intros _. nia.
      * intros _. pose proof (Hexp _ _ _ _ Cy Cx E). lia.
    + intros _. nia.
    + destruct (Z.compare_spec ex ey) as [E | E | E]; try discriminate.
      * subst ey. rewrite Pos.compare_cont_spec. cbn [Pos.switch_Eq].
        destruct (Pos.compare_spec mx my) as [E | E | E]; try discriminate.
        intros _. nia.
      * intros _. pose proof (Hexp _ _ _ _ Cx Cy E). lia.
Qed.

(** Rounding a quotient half up, when the dividend is within half a
    divisor of [n] divisors. *)
Lemma round_div m h n :
  0 < h -> (2 * n - 1) * h < m < (2 * n + 1) * h ->
  (if 2 * h <=? 2 * (m mod (2 * h)) then m / (2 * h) + 1 else m / (2 * h))
  = n.
Proof.
  intros Hh Hm.
  assert (Hd : 0 < 2 * h) by lia.
  pose proof (Z.div_mod m (2 * h) ltac:(lia)) as E.
  pose proof (Z.mod_pos_bound m (2 * h) Hd) as B.
  set (q := m / (2 * h)) in *. set (r := m mod (2 * h)) in *.
  destruct (Z.leb_spec (2 * h) (2 * r)) as [L | L].
  - assert (q = n - 1) by nia. lia.
  - assert (q = n) by nia. lia.
Qed.

Lemma half_points n :
  30 <= n <= 120 -> Spec.half_points_ok n = true.
Proof.
  intros Hn.
  assert (H : forallb Spec.half_points_ok Spec.whole_degrees = true)
    by (vm_compute; reflexivity).
  rewrite forallb_forall in H. apply H.
  unfold Spec.whole_degrees. apply in_map_iff.
  exists (Z.to_nat n). split; [lia |]. apply in_seq. lia.
Qed.

(** [std::round] of a float strictly between [n - 0.5] and [n + 0.5] is
    [n], for the whole degrees of the valid fov range. *)
Lemma round_near_whole y n :
  30 <= n <= 120 ->
  ltb (half_below n) y = true -> ltb y (half_above n) = true ->
  round y = of_int n.
Proof.
  intros Hn Hlo Hhi. pose proof (half_points n Hn) as Hok.
  unfold Spec.half_points_ok in Hok. unfold ltb in Hlo, Hhi.
  pose proof (to_SF_canonical (half_below n)) as Clo.
  pose proof (to_SF_canonical (half_above n)) as Chi.
  destruct (to_SF (half_below n)) as [| | | [|] m1 e1]; try discriminate.
  destruct (to_SF (half_above n)) as [| | | [|] m2 e2]; try discriminate.
  apply andb_prop in Hok. destruct Hok as [Hok He2].
  apply andb_prop in Hok. destruct Hok as [Hok He1].
  apply andb_prop in Hok. destruct Hok as [Hv1 Hv2].
  apply Z.eqb_eq in Hv1, Hv2. apply Z.leb_le in He1, He2.
  unfold round. pose proof (to_SF_canonical y) as Cy.
  destruct (to_SF y) as [sy | sy | | sy my ey].
  - discriminate.
  - destruct sy; discriminate.
  - discriminate.
  - pose proof (SFltb_scaled _ _ Clo Cy Hlo) as L1.
    pose proof (SFltb_scaled _ _ Cy Chi Hhi) as L2.
    cbn [scaled] in L1, L2. rewrite Z.mul_1_l in L1, L2.
    rewrite Hv1 in L1. rewrite Hv2 in L2.
    assert (Hp : 0 < 2 ^ (ey + 149))
      by (apply Z.pow_pos_nonneg; unfold canonical in Cy; lia).
    assert (Hp148 : 0 < 2 ^ 148) by reflexivity.
    destruct sy; [nia |]. rewrite Z.mul_1_l in L1, L2.
    assert (Hey : ey < 0).
    { destruct (Z.lt_ge_cases ey 0) as [| Hge]; [assumption | exfalso].
      unfold canonical in Cy. destruct Cy as [[? _] | [[Hm _] _]]; [lia |].
      assert (2 ^ 149 <= 2 ^ (ey + 149)) by (apply Z.pow_le_mono_r; lia).
      change (2 ^ 149) with (2 * 2 ^ 148) in *.
      change (2 ^ 23) with 8388608 in *. nia. }
    assert (Hey' : -149 <= ey) by (unfold canonical in Cy; lia).
    unfold SFround. destruct (Z.leb_spec 0 ey) as [| _]; [lia |].
    set (h := 2 ^ (- ey - 1)).
    assert (Hh : 0 < h) by (apply Z.pow_pos_nonneg; lia).
    assert (Hd : 2 ^ (- ey) = 2 * h).
    { unfold h. replace (- ey) with (Z.succ (- ey - 1)) at 1 by lia.
      rewrite Z.pow_succ_r by lia. reflexivity. }
    assert (H148 : 2 ^ 148 = h * 2 ^ (ey + 149)).
    { unfold h. rewrite <- Z.pow_add_r by lia. f_equal. lia. }
    rewrite Hd.
    rewrite (round_div (Zpos my) h n Hh) by (rewrite H148 in *; nia).
    unfold of_int, binary_normalize.
    destruct n as [| p | p]; [lia | reflexivity | lia].
Qed.

(** *** What [std::round] can return *)

Lemma digits2_pos_bounds p :
  2 ^ (Zpos (digits2_pos p) - 1) <= Zpos p < 2 ^ Zpos (digits2_pos p).
Proof.
  induction p as [p IH | p IH |]; cbn [digits2_pos];
    rewrite ?Pos2Z.inj_succ.
  - replace (Z.succ (Zpos (digits2_pos p)) - 1) with
      (Z.succ (Zpos (digits2_pos p) - 1)) by lia.
    rewrite !Z.pow_succ_r by lia. lia.
  - replace (Z.succ (Zpos (digits2_pos p)) - 1) with
      (Z.succ (Zpos (digits2_pos p) - 1)) by lia.
    rewrite !Z.pow_succ_r by lia. lia.
  - cbn. lia.
Qed.

Lemma digits2_pos_iter n k :
  digits2_pos (Pos.iter xO n k) = (digits2_pos n + k)%positive.
Proof.
  induction k as [| k IH] using Pos.peano_ind.
  - cbn. lia.
  - rewrite Pos.iter_succ. cbn [digits2_pos]. rewrite IH. lia.
Qed.

Lemma iter_xO_mul n k : Zpos (Pos.iter xO n k) = Zpos n * 2 ^ Zpos k.
Proof.
  induction k as [| k IH] using Pos.peano_ind.
  - cbn. lia.
  - rewrite Pos.iter_succ, Pos2Z.inj_xO, IH.
    rewrite Pos2Z.inj_succ, Z.pow_succ_r by lia. lia.
Qed.

(** A 24-bit significand with an exponent in range is not rounded. *)
Lemma binary_round_aux_exact s m e :
  Zpos (digits2_pos m) = 24 -> -149 <= e <= 104 ->
  binary_round_aux prec emax s (Zpos m) e loc_Exact = S754_finite s m e.
Proof.
  intros Hd He. unfold binary_round_aux, shr_fexp, shr_record_of_loc.
  cbn [Zdigits2]. rewrite Hd. unfold fexp, emin, prec, emax.
  replace (Z.max (24 + e - 24) (3 - 128 - 24) - e) with 0 by lia.
  cbn [shr shr_m loc_of_shr_record round_nearest_even Zdigits2].
  rewrite Hd.
  replace (Z.max (24 + e - 24) (3 - 128 - 24) - e) with 0 by lia.
  cbn [shr shr_m].
  destruct (Z.leb_spec e (128 - 24)); [reflexivity | lia].
Qed.

(** The float of a whole number of at most 24 bits: the number shifted
    left to 24 bits, with the exponent that undoes the shift. *)
Lemma binary_round_whole s n :
  Zpos (digits2_pos n) <= 24 ->
  exists m,
    binary_round prec emax s n 0
    = S754_finite s m (Zpos (digits2_pos n) - 24)
    /\ Zpos m = Zpos n * 2 ^ (24 - Zpos (digits2_pos n))
    /\ 2 ^ 23 <= Zpos m < 2 ^ 24.
Proof.
  intros Hd. unfold binary_round, shl_align, fexp, emin, prec, emax.
  rewrite Z.add_0_r, Z.sub_0_r.
  pose proof (Pos2Z.is_pos (digits2_pos n)) as Hp.
  replace (Z.max (Zpos (digits2_pos n) - 24) (3 - 128 - 24))
    with (Zpos (digits2_pos n) - 24) by lia.
  assert (Hb : forall m, Zpos (digits2_pos m) = 24 ->
                 2 ^ 23 <= Zpos m < 2 ^ 24).
  { intros m Hm. pose proof (digits2_pos_bounds m) as B.
    rewrite Hm in B. exact B. }
  destruct (Zpos (digits2_pos n) - 24) as [| p | p] eqn:E; try lia.
  - exists n. rewrite binary_round_aux_exact by lia.
    replace (24 - Zpos (digits2_pos n)) with 0 by lia.
    split; [reflexivity |]. split; [lia | apply Hb; lia].
  - assert (Hd' : Zpos (digits2_pos (Pos.iter xO n p)) = 24)
      by (rewrite digits2_pos_iter; lia).
    exists (Pos.iter xO n p). rewrite binary_round_aux_exact by lia.
    split; [reflexivity |]. split; [| now apply Hb].
    rewrite iter_xO_mul. f_equal. f_equal. lia.
Qed.



End Rounding.

(** ** Further properties *)

Section Further.
Import Float32 Memory camera.

Variables tanf atanf : float32 -> float32.

(** On a tracker state that [State::update] produced, an identifier of
    one of the three sets comes with the context of that set. *)
Lemma reachable_context st :
  Spec.reachable st ->
  (In (camera_id st) set_hub_context_ids -> context st = Hub)
  /\ (In (camera_id st) set_room_context_ids -> context st = Room)
  /\ (In (camera_id st) set_quest_context_ids -> context st = Quest).
Proof.
  intros [| st' id _].
  - repeat split; intros H; simpl in H;
      repeat (destruct H as [H | H]; [discriminate H || reflexivity |]);
      contradiction.
  - rewrite State_update_camera_id, State_update_context.
    destruct (sets_disjoint id) as [Hhub Hroom].
    unfold sets_hub_context, sets_room_context, sets_quest_context in *.
    repeat split; intros H; apply contains_In in H.
    + destruct (Hhub H) as [-> ->]. now rewrite H.
    + rewrite (Hroom H). now rewrite H.
    + now rewrite H.
Qed.

(** On the tracker states that occur, [adjust] changes the shift only in
    the context [Room] with [disable_room_shift] set. *)
Theorem reachable_shift_changes_in_room (g : config.UserConfig)
    (this : Params) (st : State) :
  Spec.reachable st ->
  shift (adjust tanf atanf g this st) <> shift this ->
  context st = Room /\ config.disable_room_shift g = true.
Proof.
  intros Hr Hne. unfold adjust in Hne.
  destruct (camera_id st =? SurveyorSet); [now elim Hne |].
  cbn [shift] in Hne. unfold config.get_config in Hne.
  destruct (config.disable_room_shift g); cbn [andb] in Hne;
    [| now elim Hne].
  destruct (sets_room_context (camera_id st)) eqn:E; [| now elim Hne].
  split; [| reflexivity].
  apply (reachable_context st Hr). now apply contains_In.
Qed.

(** Storing in a memory that agrees with [m0] at [k] a word whose bytes
    are those of [m0] keeps the agreement at [k]. *)
Lemma store32_agree m0 m a k :
  m k = m0 k -> store32 m a (load32 m0 a) k = m0 k.
Proof.
  intros Hk. rewrite store32_unfold, !store8_eq.
  pose proof (split_le_combine (load_bytes m0 a)) as E.
  change (Datatypes.length (load_bytes m0 a)) with 4%nat in E.
  fold (load32 m0 a) in E. unfold load_bytes, load8 in E.
  change (le_split 4 (load32 m0 a)) with
    [byte.of_Z (load32 m0 a); byte.of_Z (Z.shiftr (load32 m0 a) 8);
     byte.of_Z (Z.shiftr (Z.shiftr (load32 m0 a) 8) 8);
     byte.of_Z (Z.shiftr (Z.shiftr (Z.shiftr (load32 m0 a) 8) 8) 8)] in E.
  injection E as E0 E1 E2 E3. rewrite E0, E1, E2, E3.
  replace (a + 1 + 1 + 1) with (a + 3) by lia.
  replace (a + 1 + 1) with (a + 2) by lia.
  repeat match goal with
         | |- context [?x =? ?y] =>
             destruct (Z.eqb_spec x y) as [-> | _]; [reflexivity |]
         end.
  exact Hk.
Qed.

(** With the surveyor camera, [update] leaves every byte of the memory
    as it was: what it writes is what it read. *)
Theorem update_surveyor_memory (g : config.UserConfig) (w : World)
    (base k : Z) :
  load32 (mem w) (base + 0x13b8) = SurveyorSet ->
  mem (update tanf atanf g w base) k = mem w k.
Proof.
  intros Hid. unfold update; cbn [mem].
  rewrite (adjust_surveyor tanf atanf) by
    (rewrite State_update_camera_id; exact Hid).
  unfold to_memory, from_memory; cbn [fov distance height shift].
  rewrite neg_involutive. repeat apply store32_agree. reflexivity.
Qed.

(** [a == a] for every float but a NaN. *)
Lemma SFeqb_refl x : x <> S754_nan -> SFeqb x x = true.
Proof.
  unfold SFeqb. destruct x as [s | s | | s m e]; cbn [SFcompare];
    try reflexivity; try congruence.
  - destruct s; reflexivity.
  - rewrite Z.compare_refl, Pos.compare_cont_refl. destruct s; reflexivity.
Qed.

(** The log shows no new value for a field that kept its pattern, unless
    the value is a NaN, for which it always shows one. *)
Theorem log_param_adjustment_unchanged (name : string) (v : float32) :
  (to_SF v <> S754_nan -> log_param_adjustment name v v = (name, v, None))
  /\ (to_SF v = S754_nan ->
      log_param_adjustment name v v = (name, v, Some v)).
Proof.
  unfold log_param_adjustment, neqb. split; intros H.
  - now rewrite SFeqb_refl.
  - rewrite H. reflexivity.
Qed.

End Further.

(** ** The order of floats and [std::clamp] *)

Section FloatOrder.
Import Float32.

(** Comparing the other way round gives the opposite answer. *)
Lemma SFcompare_antisym x y :
  SFcompare y x = option_map CompOpp (SFcompare x y).
Proof.
  destruct x as [sx | sx | | sx mx ex], y as [sy | sy | | sy my ey];
    cbn [SFcompare option_map]; try reflexivity;
    try (destruct sx; reflexivity); try (destruct sy; reflexivity);
    try (destruct sx, sy; reflexivity).
  destruct sx, sy; cbn [CompOpp]; try reflexivity;
    rewrite (Z.compare_antisym ex ey);
    destruct (ex ?= ey); cbn [CompOpp]; try reflexivity;
    rewrite ?CompOpp_involutive;
    first [rewrite (Pos.compare_cont_antisym mx my Eq)
          | rewrite (Pos.compare_cont_antisym my mx Eq)];
    reflexivity.
Qed.

Lemma SFleb_refl x : x <> S754_nan -> SFleb x x = true.
Proof.
  unfold SFleb. destruct x as [s | s | | s m e]; cbn [SFcompare];
    try reflexivity; try congruence.
  - destruct s; reflexivity.
  - rewrite Z.compare_refl, Pos.compare_cont_refl. destruct s; reflexivity.
Qed.

(** Of two numbers, when the first is not below the second, the second is
    at most the first. *)
Lemma SFltb_false_SFleb x y :
  x <> S754_nan -> y <> S754_nan -> SFltb x y = false -> SFleb y x = true.
Proof.
  intros Hx Hy. unfold SFltb, SFleb. rewrite (SFcompare_antisym x y).
  destruct (SFcompare x y) as [[| |] |] eqn:E; cbn; try congruence.
  destruct x, y; cbn in E; congruence.
Qed.

Lemma SFltb_true_SFleb x y : SFltb x y = true -> SFleb x y = true.
Proof.
  unfold SFltb, SFleb. destruct (SFcompare x y) as [[| |] |]; congruence.
Qed.

Lemma SFltb_true_not_SFleb x y : SFltb x y = true -> SFleb y x = false.
Proof.
  unfold SFltb, SFleb. rewrite (SFcompare_antisym x y).
  destruct (SFcompare x y) as [[| |] |]; cbn; congruence.
Qed.

Lemma SFltb_true_not_SFeqb x y : SFltb x y = true -> SFeqb y x = false.
Proof.
  unfold SFltb, SFeqb. rewrite (SFcompare_antisym x y).
  destruct (SFcompare x y) as [[| |] |]; cbn; congruence.
Qed.

Lemma SFltb_true_not_SFeqb_l x y : SFltb x y = true -> SFeqb x y = false.
Proof.
  unfold SFltb, SFeqb. destruct (SFcompare x y) as [[| |] |]; congruence.
Qed.

Lemma SFltb_nan_l x : SFltb S754_nan x = false.
Proof. reflexivity. Qed.

Lemma SFltb_nan_r x : SFltb x S754_nan = false.
Proof. destruct x; reflexivity. Qed.

Lemma SFleb_nan_r x : SFleb x S754_nan = false.
Proof. destruct x; reflexivity. Qed.

Lemma is_nan_true v : Std.is_nan v = true <-> to_SF v = S754_nan.
Proof. unfold Std.is_nan. destruct (to_SF v); split; congruence. Qed.

Lemma is_nan_false v : Std.is_nan v = false <-> to_SF v <> S754_nan.
Proof. unfold Std.is_nan. destruct (to_SF v); split; congruence. Qed.

Section Clamp.

Variables lo hi : float32.
Hypothesis lo_hi : Std.in_range lo lo hi = true.

Lemma lo_not_nan : to_SF lo <> S754_nan.
Proof.
  intros E. unfold Std.in_range in lo_hi. rewrite E in lo_hi.
  discriminate.
Qed.

Lemma hi_not_nan : to_SF hi <> S754_nan.
Proof.
  intros E. unfold Std.in_range in lo_hi. rewrite E in lo_hi.
  rewrite SFleb_nan_r, andb_false_r in lo_hi. discriminate.
Qed.

Lemma hi_in_range : Std.in_range hi lo hi = true.
Proof.
  pose proof lo_hi as H0. unfold Std.in_range in *.
  apply andb_prop in H0. destruct H0 as [_ H].
  rewrite H. apply SFleb_refl, hi_not_nan.
Qed.

(** A NaN passes [std::clamp]. *)
Lemma clamp_nan v : Std.is_nan v = true -> Std.clamp v lo hi = v.
Proof.
  intros H. apply is_nan_true in H. unfold Std.clamp, ltb.
  now rewrite H, SFltb_nan_l, SFltb_nan_r.
Qed.

(** Anything else is brought into the range. *)
Lemma clamp_in_range v :
  Std.is_nan v = false -> Std.in_range (Std.clamp v lo hi) lo hi = true.
Proof.
  intros H. apply is_nan_false in H. unfold Std.clamp, ltb.
  destruct (SFltb (to_SF v) (to_SF lo)) eqn:E1; [exact lo_hi |].
  destruct (SFltb (to_SF hi) (to_SF v)) eqn:E2; [exact hi_in_range |].
  unfold Std.in_range. apply andb_true_intro. split.
  - apply SFltb_false_SFleb; [exact H | exact lo_not_nan | exact E1].
  - apply SFltb_false_SFleb; [exact hi_not_nan | exact H | exact E2].
Qed.

(** What is in the range is not changed. *)
Lemma clamp_of_in_range v :
  Std.in_range v lo hi = true -> Std.clamp v lo hi = v.
Proof.
  unfold Std.in_range, Std.clamp, ltb. intros H.
  apply andb_prop in H. destruct H as [H1 H2].
  destruct (SFltb (to_SF v) (to_SF lo)) eqn:E1.
  - apply SFltb_true_not_SFleb in E1. congruence.
  - destruct (SFltb (to_SF hi) (to_SF v)) eqn:E2; [| reflexivity].
    apply SFltb_true_not_SFleb in E2. congruence.
Qed.

Lemma in_range_not_nan v : Std.in_range v lo hi = true -> Std.is_nan v = false.
Proof.
  unfold Std.in_range. intros H. apply is_nan_false. intros E.
  rewrite E, SFleb_nan_r in H. discriminate.
Qed.

Lemma clamp_idempotent v :
  Std.clamp (Std.clamp v lo hi) lo hi = Std.clamp v lo hi.
Proof.
  destruct (Std.is_nan v) eqn:E.
  - now rewrite !(clamp_nan v E).
  - apply clamp_of_in_range, clamp_in_range, E.
Qed.

(** The clamped value differs from the value, as a float, exactly when the
    value is not in the range; a NaN counts as different from itself. *)
Lemma clamp_neqb v :
  neqb (Std.clamp v lo hi) v = negb (Std.in_range v lo hi).
Proof.
  unfold neqb, Std.clamp, Std.in_range, ltb.
  destruct (SFltb (to_SF v) (to_SF lo)) eqn:E1.
  - rewrite (SFltb_true_not_SFeqb _ _ E1), (SFltb_true_not_SFleb _ _ E1).
    reflexivity.
  - destruct (SFltb (to_SF hi) (to_SF v)) eqn:E2.
    + rewrite (SFltb_true_not_SFeqb_l _ _ E2),
        (SFltb_true_not_SFleb _ _ E2).
      now rewrite andb_false_r.
    + destruct (to_SF v) as [s | s | | s m e] eqn:Ev;
        try (rewrite SFeqb_refl by discriminate;
             rewrite !SFltb_false_SFleb
               by (assumption || discriminate || apply lo_not_nan
                   || apply hi_not_nan);
             reflexivity).
      now rewrite SFleb_nan_r.
Qed.

End Clamp.

End FloatOrder.

(** ** Reading the configuration file *)

Section ConfigFile.
Import Float32 config config_file ConfigSpec.

Lemma fov_range_ordered :
  Std.in_range fov_range_lower fov_range_lower fov_range_upper = true.
Proof. reflexivity. Qed.

(** [clamp_fov] brings every number into the valid range and leaves a NaN
    as it is; it changes no value of the range, and clamping twice is
    clamping once. *)
Theorem clamp_fov_range (value : float32) :
  (Std.is_nan value = true -> config.clamp_fov value = value)
  /\ (Std.is_nan value = false ->
      valid_fov (config.clamp_fov value) = true)
  /\ (valid_fov value = true -> config.clamp_fov value = value)
  /\ config.clamp_fov (config.clamp_fov value) = config.clamp_fov value.
Proof.
  split; [| split; [| split]].
  - apply (clamp_nan fov_range_lower fov_range_upper).
  - apply (clamp_in_range _ _ fov_range_ordered).
  - apply (clamp_of_in_range fov_range_lower fov_range_upper).
  - apply (clamp_idempotent _ _ fov_range_ordered).
Qed.

Lemma clamp_fov_ok value : fov_ok (config.clamp_fov value).
Proof.
  unfold fov_ok. destruct (Std.is_nan value) eqn:E.
  - right. change (config.clamp_fov value)
      with (Std.clamp value fov_range_lower fov_range_upper).
    now rewrite (clamp_nan fov_range_lower fov_range_upper value E).
  - left. now apply (clamp_in_range _ _ fov_range_ordered).
Qed.

(** [clamp_fov] writes its warning exactly when the value is not in the
    valid range, which includes a NaN that it returns unchanged. *)
Theorem clamp_fov_warns (value : float32) :
  config_file.clamp_fov value
  = (config.clamp_fov value,
     if valid_fov value then [] else [FOV_clamped]).
Proof.
  unfold config_file.clamp_fov.
  change (config.clamp_fov value)
    with (Std.clamp value fov_range_lower fov_range_upper).
  rewrite (clamp_neqb _ _ fov_range_ordered).
  change (Std.in_range value fov_range_lower fov_range_upper)
    with (valid_fov value).
  destruct (valid_fov value); reflexivity.
Qed.

Lemma fst_bind {A B : Type} (c : Logged A) (k : A -> Logged B) :
  fst (bind c k) = fst (k (fst c)).
Proof. unfold bind. destruct c as [a l1]. cbn. now destruct (k a). Qed.

Lemma snd_bind {A B : Type} (c : Logged A) (k : A -> Logged B) :
  snd (bind c k) = snd c ++ snd (k (fst c)).
Proof. unfold bind. destruct c as [a l1]. cbn. now destruct (k a). Qed.

Section WithLibrary.

Context {V : Type} (L : toml.Library V).

Lemma fst_read_value {T : Type} (value_as : toml.node V -> option T)
    type_name t key trace :
  fst (read_value L value_as type_name t key trace)
  = match toml.get t key with
    | Some n => value_as n
    | None => None
    end.
Proof.
  unfold read_value. destruct (toml.get t key) as [n |]; [| reflexivity].
  destruct (value_as n); reflexivity.
Qed.

Lemma fst_clamp_fov value :
  fst (config_file.clamp_fov value) = config.clamp_fov value.
Proof.
  unfold config_file.clamp_fov.
  now destruct (neqb (config.clamp_fov value) value).
Qed.

Lemma fst_from_table_Settings t trace defaults :
  fst (from_table_Settings L t trace defaults) = settings_from L t defaults.
Proof.
  unfold from_table_Settings, settings_from, lookup_float.
  rewrite !fst_bind, !fst_read_value.
  destruct (toml.get t "fov") as [n |]; [| reflexivity].
  destruct (toml.value_float L n); [| reflexivity].
  now rewrite fst_bind, fst_clamp_fov.
Qed.

Lemma fst_from_table_at_key t key trace defaults :
  fst (from_table_at_key L (from_table_Settings L) t key trace defaults)
  = match toml.get t key with
    | Some n =>
        match toml.as_table n with
        | Some sub => settings_from L sub defaults
        | None => defaults
        end
    | None => defaults
    end.
Proof.
  unfold from_table_at_key. destruct (toml.get t key) as [n |];
    [| reflexivity].
  destruct (toml.as_table n); [apply fst_from_table_Settings | reflexivity].
Qed.

(** The configuration [from_file] makes of a parsed table, without the
    log. *)
Lemma fst_from_file path t :
  fst (from_file L path (toml.parsed t))
  = let global := settings_from L t default_Settings in
    let at_context context :=
      match toml.get t (as_str context) with
      | Some n =>
          match toml.as_table n with
          | Some sub => settings_from L sub global
          | None => global
          end
      | None => global
      end in
    Some {| hub_cam := at_context Hub;
            room_cam := at_context Room;
            quest_cam := at_context Quest;
            disable_room_shift :=
              match toml.get t "disable_room_shift" with
              | Some n =>
                  match toml.value_bool L n with
                  | Some b => b
                  | None => false
                  end
              | None => false
              end |}.
Proof.
  unfold from_file.
  rewrite !fst_bind, !fst_from_table_at_key, fst_from_table_Settings,
    fst_read_value.
  cbn zeta. cbn [fst ret].
  destruct (toml.get t "disable_room_shift") as [n |]; [| reflexivity].
  destruct (toml.value_bool L n); reflexivity.
Qed.

(** A parsed file always gives a configuration, and in it a value of the
    table of a context comes before the value at the top level, which
    comes before the built-in default; a fov that is read is clamped. *)
Theorem from_file_precedence (path : string) (t : toml.table V)
    (context : Context) :
  exists cfg,
    fst (from_file L path (toml.parsed t)) = Some cfg
    /\ fov (Spec.settings_of cfg context)
       = first_of
           (option_map config.clamp_fov (lookup_float_in L t context "fov"))
           (option_map config.clamp_fov (lookup_float L t "fov"))
           (of_int 53)
    /\ distance (Spec.settings_of cfg context)
       = first_of (lookup_float_in L t context "distance")
           (lookup_float L t "distance") (of_int 1)
    /\ height (Spec.settings_of cfg context)
       = first_of (lookup_float_in L t context "height")
           (lookup_float L t "height") (of_int 1).
Proof.
  rewrite fst_from_file. cbn zeta. eexists. split; [reflexivity |].
  unfold lookup_float_in.
  destruct context; cbn [Spec.settings_of hub_cam room_cam quest_cam as_str];
    match goal with
    | |- context [toml.get t ?k] =>
        destruct (toml.get t k) as [n |]; [destruct (toml.as_table n) |]
    end;
    unfold settings_from; cbn [fov distance height default_Settings];
    repeat split;
    repeat match goal with
           | |- context [lookup_float L ?u ?k] =>
               destruct (lookup_float L u k)
           end;
    reflexivity.
Qed.

Lemma settings_from_ok t defaults :
  fov_ok (fov defaults) -> fov_ok (fov (settings_from L t defaults)).
Proof.
  intros H. unfold settings_from; cbn [fov].
  destruct (lookup_float L t "fov"); [apply clamp_fov_ok | exact H].
Qed.

Lemma default_Settings_ok : fov_ok (fov default_Settings).
Proof. left. reflexivity. Qed.

Lemma from_file_ok path (parse_result : toml.parse_result V) cfg :
  fst (from_file L path parse_result) = Some cfg -> UserConfig_ok cfg.
Proof.
  destruct parse_result as [d src | t].
  - unfold from_file. rewrite !fst_bind. discriminate.
  - rewrite fst_from_file. cbn zeta. intros [= <-].
    assert (G : fov_ok (fov (settings_from L t default_Settings)))
      by apply settings_from_ok, default_Settings_ok.
    unfold UserConfig_ok; cbn [hub_cam room_cam quest_cam].
    repeat split;
      match goal with
      | |- context [toml.get t ?k] =>
          destruct (toml.get t k) as [n |];
            [destruct (toml.as_table n) |]
      end;
      try exact G; now apply settings_from_ok.
Qed.

(** Every fov of a configuration that [from_file] returns is in the valid
    range or is a NaN, whatever the file holds. *)
Theorem from_file_fov_ok (path : string)
    (parse_result : toml.parse_result V) (cfg : UserConfig) :
  fst (from_file L path parse_result) = Some cfg -> UserConfig_ok cfg.
Proof. apply from_file_ok. Qed.

Lemma get_not_expected (t : toml.table V) keys key :
  (forall kv, In kv t -> existsb (String.eqb (fst kv)) keys = false) ->
  In key keys -> toml.get t key = None.
Proof.
  intros H Hin. unfold toml.get.
  destruct (find (fun kv => (fst kv =? key)%string) t) as [kv |] eqn:E;
    [| reflexivity].
  apply find_some in E. destruct E as [Hkv Heq].
  apply String.eqb_eq in Heq.
  pose proof (H kv Hkv) as Hn.
  assert (Ht : existsb (String.eqb (fst kv)) keys = true).
  { apply existsb_exists. exists key. split; [exact Hin |].
    now apply String.eqb_eq. }
  congruence.
Qed.

Lemma warn_unknown_keys_all (t : toml.table V) keys trace :
  (forall kv, In kv t -> existsb (String.eqb (fst kv)) keys = false) ->
  warn_unknown_keys t keys trace
  = (tt, map (fun kv => Unknown_key (trace_str (mkTrace trace (fst kv)))) t).
Proof.
  induction t as [| [key n] rest IH]; intros H; [reflexivity |].
  cbn [warn_unknown_keys map fst].
  pose proof (H (key, n) (or_introl eq_refl)) as Hk. cbn [fst] in Hk.
  rewrite Hk.
  rewrite IH by (intros kv Hkv; apply H; right; exact Hkv).
  reflexivity.
Qed.

(** A file that holds none of the known keys (an empty file is one) gives
    the default configuration, with one warning for each of its keys and
    no other line but the first. *)
Theorem from_file_unknown_keys (path : string) (t : toml.table V) :
  (forall kv, In kv t ->
     existsb (String.eqb (fst kv)) UserConfig_expected_keys = false) ->
  from_file L path (toml.parsed t)
  = (Some default_UserConfig,
     Parsing_config_file path :: map (fun kv => Unknown_key (fst kv)) t).
Proof.
  intros H.
  assert (G : forall key, In key UserConfig_expected_keys ->
                toml.get t key = None)
    by (intros key; apply get_not_expected, H).
  unfold from_file, from_table_Settings, from_table_at_key, read_value.
  rewrite (warn_unknown_keys_all t _ None H).
  cbn [as_str].
  rewrite !G by (cbn; tauto).
  cbn. rewrite app_nil_r. reflexivity.
Qed.

(** Of the keys of a settings table only [fov], [distance] and [height]
    count: an entry under another key, [shift] included, changes nothing
    of the settings. *)
Theorem from_table_Settings_other_key (t : toml.table V) (key : string)
    (n : toml.node V) (trace : option Trace) (defaults : Settings) :
  existsb (String.eqb key) ["fov"; "distance"; "height"]%string = false ->
  fst (from_table_Settings L ((key, n) :: t) trace defaults)
  = fst (from_table_Settings L t trace defaults).
Proof.
  intros H. rewrite !fst_from_table_Settings.
  cbn [existsb] in H.
  apply orb_false_elim in H. destruct H as [H1 H].
  apply orb_false_elim in H. destruct H as [H2 H].
  apply orb_false_elim in H. destruct H as [H3 _].
  unfold settings_from, lookup_float, toml.get. cbn [find fst].
  now rewrite H1, H2, H3.
Qed.

(** *** Reloading *)

(** Calling [reload_config] again in the same surroundings changes
    nothing and writes nothing. *)
Theorem reload_config_idempotent (env : Environment) (g : Globals) :
  reload_config L env (fst (reload_config L env g))
  = (fst (reload_config L env g), []).
Proof.
  unfold reload_config.
  destruct (get_config_path (GameVersion env)) as [path |];
    [| reflexivity].
  destruct (last_write_time env path) as [time |]; [| reflexivity].
  destruct (match g_config_last_write_time g with
            | Some last => time <=? last
            | None => false
            end) eqn:E.
  - cbn [fst ret]. now rewrite E.
  - rewrite !fst_bind. cbn [fst ret g_config_last_write_time].
    rewrite Z.leb_refl. reflexivity.
Qed.

(** When the file is newer than what is recorded and does not parse,
    [reload_config] keeps the settings it has, says so, and records the
    time of the file. *)
Theorem reload_config_parse_failure (env : Environment) (g : Globals)
    (path : string) (time : Z) (description source : string) :
  get_config_path (GameVersion env) = Some path ->
  last_write_time env path = Some time ->
  (forall last, g_config_last_write_time g = Some last -> last < time) ->
  parse_file env path = toml.failed description source ->
  reload_config L env g
  = ({| g_config := g_config g; g_config_last_write_time := Some time |},
     [Parsing_config_file path; Parse_error description;
      Parse_error_occured_on source; Keeping_existing_settings]).
Proof.
  intros Ep Et Hnew Ef. unfold reload_config. rewrite Ep, Et, Ef.
  destruct (g_config_last_write_time g) as [last |].
  - destruct (Z.leb_spec time last) as [Hle | _]; [| reflexivity].
    specialize (Hnew last eq_refl). lia.
  - reflexivity.
Qed.

Lemma reload_config_ok env g :
  UserConfig_ok (g_config g) ->
  UserConfig_ok (g_config (fst (reload_config L env g))).
Proof.
  intros H. unfold reload_config.
  destruct (get_config_path (GameVersion env)) as [path |]; [| exact H].
  destruct (last_write_time env path) as [time |]; [| exact H].
  destruct (match g_config_last_write_time g with
            | Some last => time <=? last
            | None => false
            end); [exact H |].
  rewrite !fst_bind. cbn [fst ret g_config].
  destruct (fst (from_file L path (parse_file env path))) as [c |] eqn:E.
  - cbn [fst ret]. exact (from_file_ok _ _ _ E).
  - rewrite fst_bind. exact H.
Qed.

Lemma reload_config_time env g :
  time_le (g_config_last_write_time g)
    (g_config_last_write_time (fst (reload_config L env g))).
Proof.
  assert (R : forall a, time_le a a)
    by (intros [a |]; cbn; [lia | exact I]).
  unfold reload_config.
  destruct (get_config_path (GameVersion env)) as [path |]; [| apply R].
  destruct (last_write_time env path) as [time |]; [| apply R].
  destruct (g_config_last_write_time g) as [last |] eqn:El.
  - destruct (Z.leb_spec time last) as [Hle | Hlt].
    + cbn [fst ret]. rewrite El. apply R.
    + rewrite !fst_bind. cbn [fst ret g_config_last_write_time time_le].
      lia.
  - exact I.
Qed.

(** Through any number of reloads in any surroundings, starting from the
    initial globals, every fov of [g_config] is in the valid range or a
    NaN, and the recorded file time never goes back. *)
Theorem reload_config_invariant (envs : list Environment) (env : Environment) :
  UserConfig_ok (g_config (run_reloads L envs initial_Globals))
  /\ time_le
       (g_config_last_write_time (run_reloads L envs initial_Globals))
       (g_config_last_write_time
          (run_reloads L (envs ++ [env]) initial_Globals)).
Proof.
  split.
  - assert (G : forall g, UserConfig_ok (g_config g) ->
                  UserConfig_ok (g_config (run_reloads L envs g))).
    { induction envs as [| e rest IH]; intros g Hg; [exact Hg |].
      cbn [run_reloads fold_left]. apply IH, reload_config_ok, Hg. }
    apply G. repeat split; left; reflexivity.
  - unfold run_reloads. rewrite fold_left_app. cbn [fold_left].
    apply reload_config_time.
Qed.

End WithLibrary.

End ConfigFile.

(** ** The hooks *)

Section Hooks.
Import Memory dllmain HookSpec.

Lemma equal_holds bytes m target :
  equal bytes m target = true <-> holds m target bytes.
Proof.
  revert target. induction bytes as [| b rest IH]; intros target.
  - split; [intros _ i Hi; cbn in Hi; lia | reflexivity].
  - cbn [equal]. split.
    + destruct (Byte.eqb b (load8 m target)) eqn:E; [| discriminate].
      apply Byte.byte_dec_bl in E. intros H i Hi.
      apply IH in H. destruct i as [| i].
      * cbn. rewrite Z.add_0_r. now symmetry.
      * cbn [nth]. cbn [List.length] in Hi.
        replace (target + Z.of_nat (S i)) with (target + 1 + Z.of_nat i)
          by lia.
        apply H. lia.
    + intros H.
      pose proof (H 0%nat ltac:(cbn; lia)) as H0.
      cbn in H0. rewrite Z.add_0_r in H0.
      rewrite H0, (Byte.byte_dec_lb eq_refl). apply IH.
      intros i Hi.
      replace (target + 1 + Z.of_nat i) with (target + Z.of_nat (S i))
        by lia.
      apply (H (S i)). cbn [List.length]. lia.
Qed.

(** [check_bytes] passes exactly when the memory holds every byte of the
    signature from the target on, and writes its error line exactly when
    it fails. *)
Theorem check_bytes_holds (m : memory) (target : Z) (bytes : list byte) :
  (fst (check_bytes m target bytes) = true <-> holds m target bytes)
  /\ snd (check_bytes m target bytes)
     = if fst (check_bytes m target bytes) then []
       else [Function_does_not_match target].
Proof.
  unfold check_bytes. rewrite <- equal_holds.
  destruct (equal bytes m target); cbn; intuition congruence.
Qed.

Lemma get_targets_some supported m targets :
  fst (get_targets supported m) = Some targets ->
  supported = true /\ signatures_hold m.
Proof.
  unfold get_targets, check, check_bytes, signatures_hold.
  destruct supported; cbn [negb]; [| discriminate].
  cbn [init_camera_addr update_camera_addr targets_421810].
  rewrite <- !equal_holds.
  destruct (equal init_camera_bytes m 0x141fa0fe0);
    [| cbn; discriminate].
  destruct (equal update_camera_bytes m 0x141fa6be0);
    [| cbn; discriminate].
  intros _. repeat split.
Qed.

Section WithSafetyHook.

Variable Hook : Type.
Variable create : memory -> Z -> Detour -> (Hook * memory) + Error.

(** Unless the version is supported and both functions of the game start
    with the expected bytes, [create_hooks] fails without creating a
    hook: the memory and the hook globals are as before, whatever
    [SafetyHookInline::create] would do. *)
Theorem create_hooks_guarded (supported : bool) (p : Process Hook) :
  ~ (supported = true /\ signatures_hold (mem p)) ->
  fst (create_hooks create supported p) = (p, false).
Proof.
  intros Hn. unfold create_hooks.
  destruct (get_targets supported (mem p)) as [[targets |] l0] eqn:E;
    [| reflexivity].
  exfalso. apply Hn. apply (get_targets_some supported (mem p) targets).
  now rewrite E.
Qed.

Lemma get_targets_ok m :
  signatures_hold m -> get_targets true m = (Some targets_421810, []).
Proof.
  intros [H1 H2]. apply equal_holds in H1, H2.
  unfold get_targets, check, check_bytes.
  cbn [negb init_camera_addr update_camera_addr targets_421810].
  now rewrite H1, H2.
Qed.

(** When the checks pass, the first hook is created and the second is
    not, [create_hooks] fails and leaves the first hook installed: the
    memory is the patched one and [g_init_camera_hook] holds the hook. *)
Theorem create_hooks_second_fails (p : Process Hook) (h : Hook)
    (m1 : memory) (error : Error) :
  signatures_hold (mem p) ->
  create (mem p) 0x141fa0fe0 hook_init_camera_fn = inl (h, m1) ->
  create m1 0x141fa6be0 hook_update_camera_fn = inr error ->
  create_hooks create true p
  = (({| mem := m1; g_init_camera_hook := Some h;
         g_update_camera_hook := g_update_camera_hook p |}, false),
     [Failed_to_create_hook 0x141fa6be0; log_safetyhook_error error]).
Proof.
  intros Hs H1 H2. unfold create_hooks, create_hook.
  rewrite (get_targets_ok _ Hs).
  cbn [init_camera_addr update_camera_addr targets_421810].
  now rewrite H1, H2.
Qed.

(** [create_hooks] succeeds exactly when the version is supported, both
    signatures are found and both hooks are created, the second one in
    the memory the first creation left. *)
Theorem create_hooks_succeeds (supported : bool) (p : Process Hook) :
  snd (fst (create_hooks create supported p)) = true <->
  supported = true /\ signatures_hold (mem p)
  /\ exists h1 m1 h2 m2,
       create (mem p) 0x141fa0fe0 hook_init_camera_fn = inl (h1, m1)
       /\ create m1 0x141fa6be0 hook_update_camera_fn = inl (h2, m2)
       /\ fst (fst (create_hooks create supported p))
          = {| mem := m2; g_init_camera_hook := Some h1;
               g_update_camera_hook := Some h2 |}.
Proof.
  split.
  - intros H.
    assert (G : supported = true /\ signatures_hold (mem p)).
    { destruct supported.
      - split; [reflexivity |].
        destruct (get_targets true (mem p)) as [[t |] l0] eqn:E.
        + apply (get_targets_some true (mem p) t). now rewrite E.
        + unfold create_hooks in H. rewrite E in H. discriminate.
      - discriminate. }
    destruct G as [-> Hs]. split; [reflexivity |]. split; [exact Hs |].
    unfold create_hooks, create_hook in *.
    rewrite (get_targets_ok _ Hs) in *.
    cbn [init_camera_addr update_camera_addr targets_421810] in *.
    destruct (create (mem p) 0x141fa0fe0 hook_init_camera_fn)
      as [[h1 m1] | e1]; [| discriminate].
    destruct (create m1 0x141fa6be0 hook_update_camera_fn)
      as [[h2 m2] | e2] eqn:E2; [| discriminate].
    exists h1, m1, h2, m2. repeat split. exact E2.
  - intros (-> & Hs & h1 & m1 & h2 & m2 & H1 & H2 & _).
    unfold create_hooks, create_hook.
    rewrite (get_targets_ok _ Hs).
    cbn [init_camera_addr update_camera_addr targets_421810].
    now rewrite H1, H2.
Qed.

End WithSafetyHook.

Section WithGame.
Import Float32 camera.

Context {V : Type} (L : toml.Library V).
Variables tanf atanf : float32 -> float32.
Variable init_camera : memory -> Z -> Z -> memory.
Variable update_camera : memory -> Z -> Z -> Z -> float32 -> memory.

Lemma after_original_effect (p : Plugin) g l m camera k :
  let state :=
    State_update (g_state (world p)) (load32 m (camera + 0x13b8)) in
  let new :=
    adjust tanf atanf (config_file.g_config g)
      (from_memory m (camera + 0x5d0)) state in
  let p' := after_original tanf atanf p g l m camera in
  globals p' = g
  /\ g_state (world p') = state
  /\ (~ In k (Spec.written_addresses camera) ->
      camera.mem (world p') k = m k)
  /\ from_memory (camera.mem (world p')) (camera + 0x5d0) = new.
Proof.
  intros state new p'. split; [reflexivity |]. split; [reflexivity |].
  unfold p', after_original, update;
    cbn [world camera.mem camera.g_state camera.log]. split.
  - intros Hk. apply to_memory_other. intros off i Hoff Hi E. apply Hk.
    rewrite E. now apply written_addresses_In.
  - apply from_memory_to_memory, adjust_wf, from_memory_wf.
Qed.

(** Each hook function makes the configuration current, lets the
    original function run, and then adjusts what that function left: the
    parameters found in memory afterwards are [adjust] of the parameters
    and the identifier the original function wrote, under the
    configuration as [reload_config] left it in this very call, and every
    other byte is as the original function left it. *)
Theorem hooks_adjust_after_original (env : config_file.Environment)
    (p : Plugin) (camera a b : Z) (param4 : float32) (k : Z) :
  let g := fst (config_file.reload_config L env (globals p)) in
  let effect (m : memory) (p' : Plugin) :=
    globals p' = g
    /\ g_state (world p')
       = State_update (g_state (world p)) (load32 m (camera + 0x13b8))
    /\ (~ In k (Spec.written_addresses camera) ->
        camera.mem (world p') k = m k)
    /\ from_memory (camera.mem (world p')) (camera + 0x5d0)
       = adjust tanf atanf (config_file.g_config g)
           (from_memory m (camera + 0x5d0))
           (State_update (g_state (world p))
              (load32 m (camera + 0x13b8))) in
  effect (init_camera (camera.mem (world p)) camera a)
    (hook_init_camera L tanf atanf init_camera env p camera a)
  /\ effect (update_camera (camera.mem (world p)) camera a b param4)
       (hook_update_camera L tanf atanf update_camera env p camera a b
          param4).
Proof.
  intros g effect. unfold effect, hook_init_camera, hook_update_camera, g.
  destruct (config_file.reload_config L env (globals p)) as [g' l].
  cbn [fst]. split; apply after_original_effect.
Qed.

End WithGame.

End Hooks.

(** ** More on the tracker and on the transform *)

Section TrackerAndScales.
Import Float32 camera TrackerSpec.

Lemma last_default {A} (l : list A) (a d d' : A) :
  last (a :: l) d = last (a :: l) d'.
Proof.
  revert a. induction l as [| b l IH]; intros a; [reflexivity |].
  change (last (b :: l) d = last (b :: l) d'). apply IH.
Qed.

(** After any sequence of identifiers the tracked context is the one of
    the most recent identifier that belongs to a set, whatever came
    before it and whatever identifiers of no set came after it; when no
    identifier of the sequence belongs to a set the context is the one
    before the sequence. The tracked identifier is the last of the
    sequence. *)
Theorem tracker_follows_last_listed (st : State) (ids : list CameraID) :
  match last_listed ids with
  | Some id =>
      (In id set_hub_context_ids -> context (updates st ids) = Hub)
      /\ (In id set_room_context_ids -> context (updates st ids) = Room)
      /\ (In id set_quest_context_ids -> context (updates st ids) = Quest)
  | None => context (updates st ids) = context st
  end
  /\ camera_id (updates st ids) = last ids (camera_id st).
Proof.
  split.
  - revert st. induction ids as [| id rest IH]; intros st; [reflexivity |].
    cbn [last_listed updates fold_left].
    specialize (IH (State_update st id)). fold (updates (State_update st id) rest) in *.
    destruct (last_listed rest) as [later |]; [exact IH |].
    rewrite IH, State_update_context. unfold listed.
    destruct (sets_disjoint id) as [Hhub Hroom].
    unfold sets_hub_context, sets_room_context, sets_quest_context in *.
    destruct (contains set_quest_context_ids id) eqn:Eq,
      (contains set_room_context_ids id) eqn:Er,
      (contains set_hub_context_ids id) eqn:Eh;
      cbn [orb];
      try (specialize (Hhub eq_refl); destruct Hhub; congruence);
      try (specialize (Hroom eq_refl); congruence);
      try reflexivity;
      repeat split; intros H; apply contains_In in H; congruence.
  - revert st. induction ids as [| id rest IH]; intros st; [reflexivity |].
    cbn [updates fold_left]. fold (updates (State_update st id) rest).
    rewrite IH, State_update_camera_id.
    destruct rest as [| c rest]; [reflexivity |].
    change (last (id :: c :: rest) (camera_id st))
      with (last (c :: rest) (camera_id st)).
    apply last_default.
Qed.

End TrackerAndScales.

(** *** Multiplying by one, rounding twice *)

Section UnitScale.
Import Float32.

Lemma canonical_fexp s m e :
  canonical (S754_finite s m e) ->
  fexp prec emax (Zpos (digits2_pos m) + e) = e.
Proof.
  unfold canonical, fexp, emin, prec, emax.
  pose proof (digits2_pos_bounds m) as B. intros [[He Hm] | [Hm He]].
  - assert (Zpos (digits2_pos m) <= 23); [| lia].
    destruct (Z.le_gt_cases (Zpos (digits2_pos m)) 23) as [| Hgt];
      [assumption | exfalso].
    assert (2 ^ 23 <= 2 ^ (Zpos (digits2_pos m) - 1))
      by (apply Z.pow_le_mono_r; lia).
    lia.
  - assert (Zpos (digits2_pos m) = 24); [| lia].
    destruct (Z.lt_trichotomy (Zpos (digits2_pos m)) 24) as [Hlt | [| Hgt]];
      [exfalso | assumption | exfalso].
    + assert (2 ^ Zpos (digits2_pos m) <= 2 ^ 23)
        by (apply Z.pow_le_mono_r; lia).
      lia.
    + assert (2 ^ 24 <= 2 ^ (Zpos (digits2_pos m) - 1))
        by (apply Z.pow_le_mono_r; lia).
      lia.
Qed.

Lemma shr_23 m :
  iter_pos shr_1 23
    {| shr_m := Zpos (8388608 * m); shr_r := false; shr_s := false |}
  = {| shr_m := Zpos m; shr_r := false; shr_s := false |}.
Proof. reflexivity. Qed.

Lemma digits_shift m :
  digits2_pos (8388608 * m) = (digits2_pos m + 23)%positive.
Proof. cbn. lia. Qed.

(** The product with [1.0f], which is [2^23 * 2^-23], is exact. *)
Lemma SFmul_one x :
  canonical x -> SFmul prec emax x (S754_finite false 8388608 (-23)) = x.
Proof.
  destruct x as [s | s | | s m e]; intros C; cbn [SFmul];
    try (destruct s; reflexivity); try reflexivity.
  rewrite xorb_false_r. unfold binary_round_aux, shr_fexp.
  rewrite (Pos.mul_comm m 8388608). cbn [Zdigits2]. rewrite digits_shift.
  replace (Zpos (digits2_pos m + 23) + (e + -23))
    with (Zpos (digits2_pos m) + e) by lia.
  rewrite (canonical_fexp s m e C). replace (e - (e + -23)) with 23 by lia.
  cbn [shr_record_of_loc shr]. rewrite shr_23.
  cbn [shr_m loc_of_shr_record round_nearest_even Zdigits2 fst snd].
  replace (e + -23 + 23) with e by lia. rewrite (canonical_fexp s m e C).
  rewrite Z.sub_diag. cbn [shr shr_m]. unfold canonical in C.
  destruct (Z.leb_spec e (emax - prec));
    [reflexivity | unfold emax, prec in *; lia].
Qed.

Lemma to_SF_one : to_SF (of_int 1) = S754_finite false 8388608 (-23).
Proof. reflexivity. Qed.

Lemma to_SF_mul_one w : to_SF (mul w (of_int 1)) = to_SF w.
Proof.
  unfold mul. rewrite to_SF_one, SFmul_one by apply to_SF_canonical.
  apply to_SF_of_SF, to_SF_canonical.
Qed.

Lemma round_mul_one w : round (mul w (of_int 1)) = round w.
Proof. unfold round. now rewrite to_SF_mul_one. Qed.

(** The float of a whole number of at most 24 bits is canonical, and
    [std::round] returns it. *)
Lemma SFround_whole s n :
  Zpos (digits2_pos n) <= 24 ->
  canonical (binary_round prec emax s n 0)
  /\ SFround (binary_round prec emax s n 0) = binary_round prec emax s n 0.
Proof.
  intros Hd. destruct (binary_round_whole s n Hd) as (m & E & Em & Bm).
  pose proof (Pos2Z.is_pos (digits2_pos n)) as Hp.
  split.
  - rewrite E. unfold canonical. right. lia.
  - rewrite E at 1. cbn [SFround].
    destruct (Z.leb_spec 0 (Zpos (digits2_pos n) - 24)) as [He | He];
      [now rewrite E |].
    replace (- (Zpos (digits2_pos n) - 24)) with (24 - Zpos (digits2_pos n))
      by lia.
    assert (Hpow : 2 <= 2 ^ (24 - Zpos (digits2_pos n))).
    { change 2 with (2 ^ 1) at 1. apply Z.pow_le_mono_r; lia. }
    rewrite Em, Z.div_mul, Z.mod_mul by lia.
    destruct (Z.leb_spec (2 ^ (24 - Zpos (digits2_pos n))) (2 * 0));
      [lia | reflexivity].
Qed.

Lemma digits2_pos_le_24 n : Zpos n <= 2 ^ 24 - 1 -> Zpos (digits2_pos n) <= 24.
Proof.
  intros H. pose proof (digits2_pos_bounds n) as B.
  destruct (Z.le_gt_cases (Zpos (digits2_pos n)) 24) as [| Hgt];
    [assumption | exfalso].
  assert (2 ^ 24 <= 2 ^ (Zpos (digits2_pos n) - 1))
    by (apply Z.pow_le_mono_r; lia).
  lia.
Qed.

(** What [std::round] returns is canonical, and rounding it again returns
    it. *)
Lemma SFround_fixed x :
  canonical x -> canonical (SFround x) /\ SFround (SFround x) = SFround x.
Proof.
  destruct x as [s | s | | s m e]; intros C; cbn [SFround];
    try (split; [exact I | reflexivity]).
  destruct (Z.leb_spec 0 e) as [He | He].
  - split; [exact C |]. cbn [SFround].
    destruct (Z.leb_spec 0 e); [reflexivity | lia].
  - unfold canonical in C.
    assert (Hd : 2 <= 2 ^ (- e)).
    { change 2 with (2 ^ 1) at 1. apply Z.pow_le_mono_r; lia. }
    assert (Hq : 0 <= Zpos m / 2 ^ (- e) <= 2 ^ 23 - 1).
    { change (2 ^ 24) with (2 * 2 ^ 23) in C. split.
      - apply Z.div_pos; lia.
      - apply Z.lt_le_pred, Z.div_lt_upper_bound; nia. }
    set (N := if 2 ^ (- e) <=? 2 * (Zpos m mod 2 ^ (- e))
              then Zpos m / 2 ^ (- e) + 1 else Zpos m / 2 ^ (- e)).
    assert (HN : 0 <= N <= 2 ^ 23) by (unfold N; destruct (_ <=? _); lia).
    destruct N as [| n | n] eqn:EN; [split; [exact I | reflexivity] | | lia].
    apply SFround_whole, digits2_pos_le_24.
    change (2 ^ 24) with (2 * 2 ^ 23). lia.
Qed.

Lemma round_idempotent w : round (round w) = round w.
Proof.
  unfold round.
  destruct (SFround_fixed (to_SF w) (to_SF_canonical w)) as [C E].
  now rewrite (to_SF_of_SF _ C), E.
Qed.

Lemma round_of_int n : - 2 ^ 24 < n < 2 ^ 24 -> round (of_int n) = of_int n.
Proof.
  intros Hn. unfold round, of_int, binary_normalize.
  destruct n as [| p | p]; [reflexivity | |].
  - destruct (SFround_whole false p) as [C E];
      [apply digits2_pos_le_24; lia |].
    now rewrite (to_SF_of_SF _ C), E.
  - destruct (SFround_whole true p) as [C E];
      [apply digits2_pos_le_24; lia |].
    now rewrite (to_SF_of_SF _ C), E.
Qed.

Variables tanf atanf : float32 -> float32.

(** With the scale factors of the context at [1.0f], the value the
    configuration starts with, [adjust] only rounds the distance and the
    height: they become [round D] and [round H], also when the raw value
    is a NaN or an infinity; adjusting the result again changes neither,
    and a raw value that is a whole number below [2^24] in magnitude is
    returned as it is. *)
Theorem adjust_unit_scales (g : config.UserConfig) (this : camera.Params)
    (st : camera.State) :
  camera.camera_id st <> camera.SurveyorSet ->
  config.distance (Spec.settings_of g (camera.context st)) = of_int 1 ->
  config.height (Spec.settings_of g (camera.context st)) = of_int 1 ->
  let adjusted := camera.adjust tanf atanf g this st in
  camera.distance adjusted = round (camera.distance this)
  /\ camera.height adjusted = round (camera.height this)
  /\ camera.distance (camera.adjust tanf atanf g adjusted st)
     = camera.distance adjusted
  /\ camera.height (camera.adjust tanf atanf g adjusted st)
     = camera.height adjusted
  /\ (forall n, - 2 ^ 24 < n < 2 ^ 24 ->
      (camera.distance this = of_int n -> camera.distance adjusted = of_int n)
      /\ (camera.height this = of_int n -> camera.height adjusted = of_int n)).
Proof.
  intros Hs Hd Hh adjusted. unfold adjusted.
  rewrite !(adjust_not_surveyor tanf atanf g _ st Hs).
  cbn [camera.distance camera.height]. rewrite Hd, Hh, !round_mul_one.
  rewrite !round_idempotent.
  repeat split; try reflexivity; intros ->; now apply round_of_int.
Qed.

(** A NaN among the raw distance and its scale factor gives a NaN for the
    adjusted distance, and likewise for the height: [adjust] never turns
    a NaN into a number. *)
Theorem adjust_nan_propagates (g : config.UserConfig) (this : camera.Params)
    (st : camera.State) :
  camera.camera_id st <> camera.SurveyorSet ->
  (Std.is_nan (camera.distance this)
   || Std.is_nan (config.distance (Spec.settings_of g (camera.context st)))
   = true ->
   Std.is_nan (camera.distance (camera.adjust tanf atanf g this st)) = true)
  /\ (Std.is_nan (camera.height this)
      || Std.is_nan (config.height (Spec.settings_of g (camera.context st)))
      = true ->
      Std.is_nan (camera.height (camera.adjust tanf atanf g this st)) = true).
Proof.
  intros Hs. rewrite (adjust_not_surveyor tanf atanf g _ st Hs).
  cbn [camera.distance camera.height].
  assert (H : forall a b, Std.is_nan a || Std.is_nan b = true ->
                Std.is_nan (round (mul a b)) = true).
  { intros a b Hab. unfold round, mul.
    apply orb_true_iff in Hab as [Ha | Hb].
    - apply is_nan_true in Ha. rewrite Ha. reflexivity.
    - apply is_nan_true in Hb. rewrite Hb.
      destruct (to_SF a); reflexivity. }
  split; apply H.
Qed.

End UnitScale.

(** ** The adjusted fov at the baseline *)

Section BaselineFov.
Import Float32 camera.













Variables tanf atanf : float32 -> float32.


(** The band is a condition on the C library: with a tangent that is
    constantly [1] and the identity for the arc tangent, the quest camera
    at its baseline and the whole-degree target [70] give [115]. *)
Example adjust_fov_constant_tangent :
  fov (adjust (fun _ => of_int 1) Spec.atan1 Spec.sample_config
         default_quest_params initial_State)
  = of_int 115.
Proof. vm_compute. reflexivity. Qed.

End BaselineFov.

(** ** The plugin in one file *)

Section Legacy.
Import Float32 Memory legacy.

Lemma mul_one w : wf w -> Std.is_nan w = false -> mul w (of_int 1) = w.
Proof.
  intros Hw Hn. apply is_nan_false in Hn. unfold mul.
  rewrite to_SF_one, SFmul_one by apply to_SF_canonical.
  now apply of_SF_to_SF.
Qed.

(** [tweak_default] returns the target itself, bit for bit, when the
    effects are switched off, whatever the game's value is, and when the
    game's value is the vanilla one: the distance [380] or the height
    [180]. *)
Theorem legacy_tweak_default_target (tweak : Tweak) :
  wf (target tweak) -> Std.is_nan (target tweak) = false ->
  (effects tweak = false ->
   forall value reference,
     tweak_default value tweak reference = target tweak)
  /\ (effects tweak = true ->
      tweak_default vanilla_distance tweak vanilla_distance = target tweak
      /\ tweak_default vanilla_height tweak vanilla_height = target tweak).
Proof.
  intros Hw Hn. split.
  - intros He value reference. unfold tweak_default. rewrite He.
    now apply mul_one.
  - intros He. unfold tweak_default. rewrite He.
    change (div vanilla_distance vanilla_distance) with (of_int 1).
    change (div vanilla_height vanilla_height) with (of_int 1).
    split; now apply mul_one.
Qed.

Lemma legacy_range_ordered : Std.in_range min_fov min_fov max_fov = true.
Proof. reflexivity. Qed.

Lemma clamp_cases lo hi v :
  Std.in_range lo lo hi = true ->
  if Std.in_range v lo hi
  then Std.clamp v lo hi = v
  else Std.clamp v lo hi = lo \/ Std.clamp v lo hi = hi
       \/ Std.is_nan (Std.clamp v lo hi) = true.
Proof.
  intros H. destruct (Std.in_range v lo hi) eqn:E.
  - now apply clamp_of_in_range.
  - unfold Std.clamp.
    destruct (ltb v lo) eqn:E1; [now left |].
    destruct (ltb hi v) eqn:E2; [right; now left |].
    right; right. destruct (Std.is_nan v) eqn:En; [reflexivity |].
    pose proof (clamp_in_range lo hi H v En) as R.
    unfold Std.clamp in R. rewrite E1, E2 in R. congruence.
Qed.

Section WithLibm.

Variables tanf atanf : float32 -> float32.
Variable hypotf : float32 -> float32 -> float32.

(** [tweak_fov] either returns a field of view from [10] to [130] and logs
    nothing, or logs its warning once and returns [10], [130] or a NaN:
    it never returns a number outside the range. *)
Theorem legacy_tweak_fov_range (fov : float32) (tweak : Tweak) :
  let r := tweak_fov tanf atanf fov tweak in
  (snd r = [] /\ Std.in_range (fst r) min_fov max_fov = true)
  \/ (snd r = [FOV_is_not_in_range]
      /\ (fst r = min_fov \/ fst r = max_fov
          \/ Std.is_nan (fst r) = true)).
Proof.
  unfold tweak_fov, clamp_fov.
  set (raw := fov_from_gradient atanf _). cbn [fst snd].
  rewrite (clamp_neqb _ _ legacy_range_ordered).
  pose proof (clamp_cases min_fov max_fov raw legacy_range_ordered) as C.
  destruct (Std.in_range raw min_fov max_fov) eqn:E; cbn [negb].
  - left. rewrite C. now split.
  - right. now split.
Qed.

(** A target that is a zero, of either sign, switches the shift tweak
    off: [tweak_shift] returns the game's shift when the effects are on
    and [0.0f] when they are off, and [std::hypot] is not called. *)
Theorem legacy_tweak_shift_zero_target (shift : float32) (tweak : Tweak) :
  (exists s, to_SF (target tweak) = S754_zero s) ->
  tweak_shift hypotf shift tweak
  = if effects tweak then shift else of_int 0.
Proof.
  intros [s Hs]. unfold tweak_shift, to_bool, neqb. rewrite Hs.
  destruct s; reflexivity.
Qed.

Lemma handle_camera_change_g_config p player_camera :
  g_config (handle_camera_change tanf atanf hypotf p player_camera)
  = g_config p.
Proof.
  unfold handle_camera_change.
  now destruct (tweak_camera _ _ _ _ _).
Qed.

Context {V : Type} (L : toml.Library V).
Variable at_path : toml.table V -> string -> option (toml.node V).
Variable init_camera_original : memory -> Z -> Z -> memory.
Variable set_camera_original : memory -> Z -> Z -> Z -> float32 -> memory.

(** When the file of a supported version does not parse, [load_config]
    replaces the configuration, whatever it was, by the built-in one:
    vanilla targets, all effects and live reload on. It logs the two
    lines of the failed parse and nothing else. *)
Theorem legacy_load_config_parse_failure (env : Environment)
    (g : Config.t) (path description source : string) :
  get_config_path (GameVersion env) = Some path ->
  parse_file env path = toml.failed description source ->
  load_config L at_path env g
  = (default_Config,
     [Parsing_config_file path; Failed_to_parse_config_file description]).
Proof.
  intros Hp Hf. unfold load_config. rewrite Hp. unfold parse_config.
  rewrite Hf. reflexivity.
Qed.

(** When the file parses and [at_path] finds none of the nine options in
    it (an empty file), [parse_config] returns the built-in configuration
    and logs, after the parsing line, one error for each option: the
    live reload switch, then the target and the effects switch of fov,
    distance, height and shift. *)
Theorem legacy_parse_config_missing_options (path : string)
    (table : toml.table V) :
  (forall option_path, at_path table option_path = None) ->
  parse_config L at_path path (toml.parsed table)
  = (default_Config,
     Parsing_config_file path
     :: map Could_not_find_option
          ["live_reload"; "fov.target"; "fov.effects"; "distance.target";
           "distance.effects"; "height.target"; "height.effects";
           "shift.target"; "shift.effects"]%string).
Proof.
  intros H. unfold parse_config, parse_tweak, parse_option.
  rewrite !H. reflexivity.
Qed.

(** Once [live_reload] is off, no sequence of calls of the two hook
    functions changes the configuration, whatever the files hold at each
    call: the file is not read again. *)
Theorem legacy_live_reload_latch (p : Plugin)
    (cs : list (Environment * Call)) :
  Config.live_reload (g_config p) = false ->
  g_config
    (calls tanf atanf hypotf L at_path init_camera_original
       set_camera_original p cs)
  = g_config p.
Proof.
  revert p. induction cs as [| [env c] cs IH]; intros p H; [reflexivity |].
  unfold calls in *. cbn [fold_left].
  assert (E : g_config
                (call tanf atanf hypotf L at_path init_camera_original
                   set_camera_original p (env, c))
              = g_config p).
  { destruct c; cbn [call]; unfold init_camera_hook, set_camera_hook;
      rewrite ?H, handle_camera_change_g_config; reflexivity. }
  rewrite IH by (now rewrite E). exact E.
Qed.

End WithLibm.

(** [write_camera] changes no byte outside the sixteen of the four
    fields, and [read_camera] reads back what it wrote: the shift at
    [+0x10], the height at [+0x14], the distance at [+0x18] negated and
    the field of view at [+0x20]. *)
Theorem legacy_write_camera_layout (m : memory) (view_params : Z)
    (c : Camera.t) :
  (forall k,
     (forall off i, In off Spec.field_offsets -> 0 <= i < 4 ->
                    k <> wrap64 (view_params + off + i)) ->
     write_camera m view_params c k = m k)
  /\ (wf (Camera.shift c) -> wf (Camera.height c) ->
      wf (Camera.distance c) -> wf (Camera.fov c) ->
      read_camera (write_camera m view_params c) view_params = c).
Proof.
  split.
  - intros k H. unfold write_camera.
    rewrite !store32_other; [reflexivity | | | |];
      intros i Hi; apply H; simpl; auto.
  - intros Hs Hh Hd Hf. unfold read_camera, write_camera.
    assert (back : forall m a w x y,
              4 <= x - y <= 2 ^ 64 - 4 ->
              load32 (store32 m (a + x) w) (a + y) = load32 m (a + y)).
    { intros m0 a w x y H.
      apply (load32_store32_far _ _ _ _ (2 ^ 64 - (x - y))); [lia |].
      unfold wrap64.
      replace (a + x + (2 ^ 64 - (x - y))) with (a + y + 1 * 2 ^ 64) by lia.
      now rewrite Z.mod_add. }
    rewrite load32_store32_same.
    rewrite (back _ _ _ 0x20 0x18), load32_store32_same by lia.
    rewrite (back _ _ _ 0x20 0x14), (back _ _ _ 0x18 0x14),
      load32_store32_same by lia.
    rewrite (back _ _ _ 0x20 0x10), (back _ _ _ 0x18 0x10),
      (back _ _ _ 0x14 0x10), load32_store32_same by lia.
    rewrite !wf_mod by (assumption || now apply neg_wf).
    rewrite neg_involutive. now destruct c.
Qed.

End Legacy.

(** ** The literals and the rounding on examples *)

Section Checks.
Import Float32 camera.

(** [3.1415927f], [360.0f] and the fovs of the baselines, as patterns. *)
Example PI_pattern : PI = 0x40490fdb.
Proof. reflexivity. Qed.

Example literal_patterns :
  of_int 360 = 0x43b40000 /\ of_int 53 = 0x42540000
  /\ of_int 51 = 0x424c0000 /\ neg (of_int 50) = 0xc2480000
  /\ of_ratio 12 10 = 0x3f99999a /\ of_int 0 = 0.
Proof. repeat split. Qed.

(** Halfway cases go away from zero, the sign of a zero is kept, and
    infinities pass. *)
Example round_examples :
  round (of_ratio 5 2) = of_int 3
  /\ round (neg (of_ratio 5 2)) = neg (of_int 3)
  /\ round (of_ratio 1 2) = of_int 1
  /\ round (of_ratio 49 100) = of_int 0
  /\ round (neg (of_ratio 49 100)) = neg (of_int 0)
  /\ round (of_ratio 1413 20) = of_int 71
  /\ round (of_int 16777216) = of_int 16777216
  /\ round Float32.infinity_bits = Float32.infinity_bits.
Proof. repeat split. Qed.

(** [380 * 1.2f] is a little above [456] as a float, and rounds to it. *)
Example mul_example :
  to_SF (mul (of_int 380) (of_ratio 12 10)) = S754_finite false 14942209 (-15)
  /\ to_SF (of_int 456) = S754_finite false 14942208 (-15).
Proof. split; reflexivity. Qed.

End Checks.

(** ** The statements on concrete inputs *)

Section Runs.
Import Float32 Memory camera.

(** The surveyor camera in a room: the parameters come back as given. *)
Lemma adjust_surveyor_unchanged_run :
  let st := {| context := Room; camera_id := SurveyorSet |} in
  camera_id st = SurveyorSet
  /\ adjust Spec.tan1 Spec.atan1 Spec.sample_config default_room_params st
     = default_room_params.
Proof.
  intros st. split; [reflexivity |].
  exact (proj1 (adjust_surveyor_unchanged Spec.tan1 Spec.atan1
                  Spec.sample_config default_room_params st eq_refl)).
Defined.

(** The private suite with the shift disabled, and the quest camera. *)
Lemma adjust_shift_by_identifier_run :
  let st := State_update initial_State PrivateSuite in
  camera_id st <> SurveyorSet
  /\ shift (adjust Spec.tan1 Spec.atan1 Spec.sample_config
              default_room_params st) = of_int 0
  /\ shift (adjust Spec.tan1 Spec.atan1 Spec.sample_config
              default_room_params initial_State) = neg (of_int 50).
Proof.
  split; [discriminate |]. split.
  - refine (proj1 (adjust_shift_by_identifier Spec.tan1 Spec.atan1
                     Spec.sample_config default_room_params
                     (State_update initial_State PrivateSuite) _) _).
    + discriminate.
    + split; [reflexivity | right; right; left; reflexivity].
  - refine (proj2 (adjust_shift_by_identifier Spec.tan1 Spec.atan1
                     Spec.sample_config default_room_params
                     initial_State _) _).
    + discriminate.
    + intros [_ H]. simpl in H. intuition discriminate.
Defined.

(** C1 as stated fails: after a private-suite camera and then a camera
    of none of the sets, the tracked context is [Room], the identifier is
    not the surveyor's and [disable_room_shift] is set, yet the shift
    [-50.0] comes back unchanged and not as [0.0], whatever [std::tan]
    and [std::atan] are. *)
Lemma adjust_shift_room_context_counterexample :
  context Spec.room_then_unlisted = Room
  /\ camera_id Spec.room_then_unlisted <> SurveyorSet
  /\ config.disable_room_shift Spec.sample_config = true
  /\ (forall tanf atanf : float32 -> float32,
        shift (adjust tanf atanf Spec.sample_config default_room_params
                 Spec.room_then_unlisted) = neg (of_int 50)
        /\ shift (adjust tanf atanf Spec.sample_config default_room_params
                    Spec.room_then_unlisted) <> of_int 0).
Proof.
  split; [reflexivity |]. split; [discriminate |].
  split; [reflexivity |]. intros tanf atanf.
  split; [reflexivity | discriminate].
Defined.

(** The quest scenario: fov 53 to 70 with the first-order stand-ins. *)
Lemma adjust_fov_formula_run :
  camera_id initial_State <> SurveyorSet
  /\ fov (adjust Spec.tan1 Spec.atan1 Spec.sample_config
            default_quest_params initial_State) = of_int 70.
Proof.
  split; [discriminate |].
  etransitivity.
  - refine (proj2 (proj2 (adjust_fov_formula Spec.tan1 Spec.atan1
                     Spec.sample_config default_quest_params
                     initial_State _))).
    discriminate.
  - vm_compute. reflexivity.
Defined.

(** The quest scenario: distance 380 scaled by 1.2, height 180 by 1. *)
Lemma adjust_distance_height_run :
  camera_id initial_State <> SurveyorSet
  /\ distance (adjust Spec.tan1 Spec.atan1 Spec.sample_config
                 default_quest_params initial_State) = of_int 456
  /\ height (adjust Spec.tan1 Spec.atan1 Spec.sample_config
               default_quest_params initial_State) = of_int 180.
Proof.
  split; [discriminate |].
  destruct (adjust_distance_height Spec.tan1 Spec.atan1 Spec.sample_config
              default_quest_params initial_State) as [Hd Hh];
    [discriminate |].
  split.
  - etransitivity; [exact Hd | vm_compute; reflexivity].
  - etransitivity; [exact Hh | vm_compute; reflexivity].
Defined.

(** The room baseline written at address [0x1000] and read back. *)
Lemma layout_and_roundtrip_run :
  wf_Params default_room_params
  /\ from_memory (to_memory default_room_params Spec.sample_memory 0x1000)
       0x1000 = default_room_params.
Proof.
  assert (H : wf_Params default_room_params)
    by (unfold wf_Params, wf; vm_compute; intuition congruence).
  split; [exact H |].
  exact (proj2 (proj2 (proj2 (proj2 (proj2
           (layout_and_roundtrip Spec.tan1 Spec.atan1 Spec.sample_config
              {| mem := Spec.sample_memory; g_state := initial_State;
                 log := [] |} 0 default_room_params Spec.sample_memory
              0x1000 H)))))).
Defined.

(** The first byte of the identifier of the camera at address [0]. *)
Lemma update_frame_run :
  let w := {| mem := Spec.sample_memory; g_state := initial_State;
              log := [] |} in
  ~ In 0x13b8 (Spec.written_addresses 0)
  /\ mem (update Spec.tan1 Spec.atan1 Spec.sample_config w 0) 0x13b8
     = mem w 0x13b8.
Proof.
  intros w.
  assert (H : ~ In 0x13b8 (Spec.written_addresses 0))
    by (vm_compute; intuition discriminate).
  split; [exact H |].
  exact (proj1 (update_frame Spec.tan1 Spec.atan1 Spec.sample_config w 0
                  0x13b8 H)).
Defined.



(** The private suite with the shift disabled: the shift changes, and the
    context is [Room]. *)
Lemma reachable_shift_changes_in_room_run :
  let st := State_update initial_State PrivateSuite in
  Spec.reachable st
  /\ shift (adjust Spec.tan1 Spec.atan1 Spec.sample_config
              default_room_params st) <> shift default_room_params
  /\ context st = Room
  /\ config.disable_room_shift Spec.sample_config = true.
Proof.
  intros st.
  assert (H1 : Spec.reachable st)
    by (apply Spec.reachable_update, Spec.reachable_initial).
  assert (H2 : shift (adjust Spec.tan1 Spec.atan1 Spec.sample_config
                        default_room_params st)
               <> shift default_room_params) by discriminate.
  split; [exact H1 |]. split; [exact H2 |].
  exact (reachable_shift_changes_in_room Spec.tan1 Spec.atan1
           Spec.sample_config default_room_params st H1 H2).
Defined.

(** A camera at address [0] whose identifier is the surveyor's. *)
Lemma update_surveyor_memory_run :
  let m := store32 Spec.sample_memory 0x13b8 SurveyorSet in
  let w := {| mem := m; g_state := initial_State; log := [] |} in
  load32 m 0x13b8 = SurveyorSet
  /\ mem (update Spec.tan1 Spec.atan1 Spec.sample_config w 0) 0x5e0
     = m 0x5e0.
Proof.
  intros m w.
  assert (H : load32 (mem w) (0 + 0x13b8) = SurveyorSet) by reflexivity.
  split; [exact H |].
  exact (update_surveyor_memory Spec.tan1 Spec.atan1 Spec.sample_config w 0
           0x5e0 H).
Defined.

End Runs.

(** ** The further statements on concrete inputs *)

Section MoreRuns.
Import Float32 Memory.

(** A file that asks for a fov of [200]: every context gets [120]. *)
Lemma from_file_fov_ok_run :
  fst (config_file.from_file ConfigSpec.sample_Library "CustomFOV.toml"
         (toml.parsed ConfigSpec.sample_wide_table))
  = Some ConfigSpec.sample_wide_config
  /\ ConfigSpec.UserConfig_ok ConfigSpec.sample_wide_config.
Proof.
  assert (H : fst (config_file.from_file ConfigSpec.sample_Library
                     "CustomFOV.toml"
                     (toml.parsed ConfigSpec.sample_wide_table))
              = Some ConfigSpec.sample_wide_config) by reflexivity.
  split; [exact H |].
  exact (from_file_fov_ok ConfigSpec.sample_Library "CustomFOV.toml"
           (toml.parsed ConfigSpec.sample_wide_table)
           ConfigSpec.sample_wide_config H).
Defined.

(** A file whose only key is misspelt. *)
Lemma from_file_unknown_keys_run :
  config_file.from_file ConfigSpec.sample_Library "CustomFOV.toml"
    (toml.parsed ConfigSpec.sample_unknown_table)
  = (Some config.default_UserConfig,
     [config_file.Parsing_config_file "CustomFOV.toml";
      config_file.Unknown_key "fob"]).
Proof.
  apply (from_file_unknown_keys ConfigSpec.sample_Library "CustomFOV.toml"
           ConfigSpec.sample_unknown_table).
  intros kv [<- | []]. reflexivity.
Defined.

(** A [shift] entry in a settings table. *)
Lemma from_table_Settings_other_key_run :
  existsb (String.eqb "shift") ["fov"; "distance"; "height"]%string = false
  /\ fst (config_file.from_table_Settings ConfigSpec.sample_Library
            [("shift"%string,
              toml.value_node (ConfigSpec.sample_float (of_int 5)))]
            None config.default_Settings)
     = fst (config_file.from_table_Settings ConfigSpec.sample_Library []
              None config.default_Settings).
Proof.
  split; [reflexivity |].
  exact (from_table_Settings_other_key ConfigSpec.sample_Library [] "shift"
           (toml.value_node (ConfigSpec.sample_float (of_int 5))) None
           config.default_Settings eq_refl).
Defined.

(** The first reload, with a file that does not parse. *)
Lemma reload_config_parse_failure_run :
  config_file.reload_config ConfigSpec.sample_Library
    ConfigSpec.sample_broken_Environment config_file.initial_Globals
  = ({| config_file.g_config := config.default_UserConfig;
        config_file.g_config_last_write_time := Some 5 |},
     [config_file.Parsing_config_file "nativePC/plugins/CustomFOV.toml";
      config_file.Parse_error "bad";
      config_file.Parse_error_occured_on "line 1";
      config_file.Keeping_existing_settings]).
Proof.
  apply (reload_config_parse_failure ConfigSpec.sample_Library
           ConfigSpec.sample_broken_Environment config_file.initial_Globals
           "nativePC/plugins/CustomFOV.toml" 5 "bad" "line 1");
    [reflexivity | reflexivity | | reflexivity].
  intros last H. discriminate H.
Defined.

(** A version that is not supported. *)
Lemma create_hooks_guarded_run :
  fst (dllmain.create_hooks HookSpec.sample_create false
         HookSpec.sample_Process)
  = (HookSpec.sample_Process, false).
Proof.
  apply (create_hooks_guarded Z HookSpec.sample_create false
           HookSpec.sample_Process).
  intros [H _]. discriminate H.
Defined.

Lemma sample_signatures_hold :
  HookSpec.signatures_hold HookSpec.sample_game_memory.
Proof. split; apply equal_holds; vm_compute; reflexivity. Qed.

(** The stand-in creates the first hook and refuses the second. *)
Lemma create_hooks_second_fails_run :
  let m1 := store8 HookSpec.sample_game_memory 0x141fa0fe0 Byte.xe9 in
  let error :=
    {| dllmain.type := dllmain.NOT_ENOUGH_SPACE;
       dllmain.allocator_error := dllmain.other_allocator_error;
       dllmain.ip := 0x141fa6be0 |} in
  dllmain.create_hooks HookSpec.sample_create true HookSpec.sample_Process
  = (({| dllmain.mem := m1;
         dllmain.g_init_camera_hook := Some 0x141fa0fe0;
         dllmain.g_update_camera_hook := None |}, false),
     [dllmain.Failed_to_create_hook 0x141fa6be0;
      dllmain.log_safetyhook_error error]).
Proof.
  intros m1 error.
  exact (create_hooks_second_fails Z HookSpec.sample_create
           HookSpec.sample_Process 0x141fa0fe0 m1 error
           sample_signatures_hold eq_refl eq_refl).
Defined.

(** The quest camera under the built-in configuration. *)
Lemma adjust_unit_scales_run :
  camera.camera_id camera.initial_State <> camera.SurveyorSet
  /\ camera.distance
       (camera.adjust Spec.tan1 Spec.atan1 config.default_UserConfig
          camera.default_quest_params camera.initial_State)
     = round (camera.distance camera.default_quest_params).
Proof.
  assert (H : camera.camera_id camera.initial_State <> camera.SurveyorSet)
    by discriminate.
  split; [exact H |].
  exact (proj1 (adjust_unit_scales Spec.tan1 Spec.atan1
                  config.default_UserConfig camera.default_quest_params
                  camera.initial_State H eq_refl eq_refl)).
Defined.

(** A raw distance that is a NaN. *)
Lemma adjust_nan_propagates_run :
  let this :=
    {| camera.fov := of_int 53; camera.distance := quiet_nan;
       camera.height := of_int 180; camera.shift := of_int 0 |} in
  camera.camera_id camera.initial_State <> camera.SurveyorSet
  /\ Std.is_nan
       (camera.distance
          (camera.adjust Spec.tan1 Spec.atan1 Spec.sample_config this
             camera.initial_State))
     = true.
Proof.
  intros this.
  assert (H : camera.camera_id camera.initial_State <> camera.SurveyorSet)
    by discriminate.
  split; [exact H |].
  exact (proj1 (adjust_nan_propagates Spec.tan1 Spec.atan1
                  Spec.sample_config this camera.initial_State H)
           eq_refl).
Defined.

(** A distance target of [400] with the effects off. *)
Lemma legacy_tweak_default_target_run :
  let tweak := legacy.Config.distance LegacySpec.sample_Config in
  legacy.tweak_default (of_int 123) tweak legacy.vanilla_distance
  = of_int 400.
Proof.
  intros tweak.
  assert (Hw : wf (legacy.target tweak))
    by (vm_compute; split; [discriminate | reflexivity]).
  exact (proj1 (legacy_tweak_default_target tweak Hw eq_refl) eq_refl
           (of_int 123) legacy.vanilla_distance).
Defined.

(** A shift target of [-0.0f]. *)
Lemma legacy_tweak_shift_zero_target_run :
  legacy.tweak_shift LegacySpec.sample_hypot (of_int 7)
    (legacy.Config.shift LegacySpec.sample_Config)
  = of_int 7.
Proof.
  apply (legacy_tweak_shift_zero_target LegacySpec.sample_hypot (of_int 7)
           (legacy.Config.shift LegacySpec.sample_Config)).
  exists true. reflexivity.
Defined.

(** A file that does not parse replaces a configuration that had been
    read. *)
Lemma legacy_load_config_parse_failure_run :
  legacy.load_config ConfigSpec.sample_Library LegacySpec.sample_at_path
    LegacySpec.sample_broken_Environment LegacySpec.sample_Config
  = (legacy.default_Config,
     [legacy.Parsing_config_file "nativePC/plugins/CustomFOV.toml";
      legacy.Failed_to_parse_config_file "bad"]).
Proof.
  exact (legacy_load_config_parse_failure ConfigSpec.sample_Library
           LegacySpec.sample_at_path LegacySpec.sample_broken_Environment
           LegacySpec.sample_Config "nativePC/plugins/CustomFOV.toml" "bad"
           "line 1" eq_refl eq_refl).
Defined.

(** An empty file. *)
Lemma legacy_parse_config_missing_options_run :
  fst (legacy.parse_config ConfigSpec.sample_Library
         LegacySpec.sample_at_path "CustomFOV.toml" (toml.parsed []))
  = legacy.default_Config.
Proof.
  exact (f_equal fst
           (legacy_parse_config_missing_options ConfigSpec.sample_Library
              LegacySpec.sample_at_path "CustomFOV.toml" []
              (fun _ => eq_refl))).
Defined.

(** Two calls with live reload off. *)
Lemma legacy_live_reload_latch_run :
  legacy.Config.live_reload (legacy.g_config LegacySpec.sample_Plugin)
  = false
  /\ legacy.g_config
       (legacy.calls Spec.tan1 Spec.atan1 LegacySpec.sample_hypot
          ConfigSpec.sample_Library LegacySpec.sample_at_path
          LegacySpec.sample_init_camera LegacySpec.sample_set_camera
          LegacySpec.sample_Plugin
          [(LegacySpec.sample_broken_Environment, legacy.Init_camera 0 0);
           (LegacySpec.sample_broken_Environment,
            legacy.Set_camera 0 0 0 (of_int 0))])
     = LegacySpec.sample_Config.
Proof.
  split; [reflexivity |].
  exact (legacy_live_reload_latch Spec.tan1 Spec.atan1
           LegacySpec.sample_hypot ConfigSpec.sample_Library
           LegacySpec.sample_at_path LegacySpec.sample_init_camera
           LegacySpec.sample_set_camera LegacySpec.sample_Plugin _ eq_refl).
Defined.

End MoreRuns.
